(** * Balance pollers and balance formatters of the signed-in screen

    Shallow embedding of [src/src/components/SignedInScreen.tsx]:
    - the two formatters ([formatEther] from viem, [formatSol]);
    - the two polling hooks [useEvmBalance] and [useSolanaBalance], as a
      deterministic event-driven state machine (React state, the effect,
      [setInterval]/[clearInterval], asynchronous fetches);
    - the wiring of the four pollers in [SignedInScreen].

    JavaScript strings are modelled as [list ascii]; JavaScript numbers as
    IEEE-754 binary64 values ([spec_float] with precision 53 and emax 1024);
    bigints as [Z]. *)

From Stdlib Require Import ZArith List Ascii String Lia Bool.
From Stdlib Require Import Floats.SpecFloat.
Import ListNotations.
Open Scope Z_scope.

(** ** Strings and decimal digits *)
Module Dec.

Definition jsstr := list ascii.

Definition s (x : string) : jsstr := list_ascii_of_string x.

Definition char_0 : ascii := "0"%char.
Definition char_dot : ascii := "."%char.
Definition char_minus : ascii := "-"%char.

Definition digit_char (d : Z) : ascii := ascii_of_nat (Z.to_nat (48 + d)).

Definition char_digit (c : ascii) : option Z :=
  let n := Z.of_nat (nat_of_ascii c) in
  if (48 <=? n) && (n <=? 57) then Some (n - 48) else None.

(** Decimal digits of a non-negative integer (most significant first). *)
Fixpoint dec_aux (fuel : nat) (n : Z) (acc : jsstr) : jsstr :=
  match fuel with
  | O => acc
  | S f =>
      let acc' := digit_char (n mod 10) :: acc in
      if n <? 10 then acc' else dec_aux f (n / 10) acc'
  end.

Definition nat_to_dec (n : Z) : jsstr := dec_aux (S (Z.to_nat (Z.log2 n))) n [].

(** [BigInt.prototype.toString()] / [Number.prototype.toString()] on an
    integer value. *)
Definition Z_toString (n : Z) : jsstr :=
  if n <? 0 then char_minus :: nat_to_dec (- n) else nat_to_dec n.

(** [s.replace(/0+$/, "")]: drop the maximal run of trailing zeros. *)
Fixpoint drop_zeros (r : jsstr) : jsstr :=
  match r with
  | c :: r' => if Ascii.eqb c char_0 then drop_zeros r' else r
  | [] => []
  end.

Definition strip_zeros (x : jsstr) : jsstr := rev (drop_zeros (rev x)).

(** [s.replace(/\.$/, "")]: drop one trailing decimal point. *)
Definition strip_dot (x : jsstr) : jsstr :=
  match rev x with
  | c :: r => if Ascii.eqb c char_dot then rev r else x
  | [] => x
  end.

(** [s.padStart(n, c)] with a one-character pad string. *)
Definition padStart (x : jsstr) (n : nat) (c : ascii) : jsstr :=
  List.repeat c (n - List.length x) ++ x.

(** Reading a decimal string: digits, optionally a point and digits.
    [decimal_value x = Some (N, k)] means that [x] denotes [N / 10^k],
    [k] being the number of fractional digits. *)
Fixpoint parse_digits (x : jsstr) : option (list Z) :=
  match x with
  | [] => Some []
  | c :: x' =>
      match char_digit c, parse_digits x' with
      | Some d, Some ds => Some (d :: ds)
      | _, _ => None
      end
  end.

Definition dval (ds : list Z) : Z := fold_left (fun acc d => acc * 10 + d) ds 0.

Fixpoint split_dot (x : jsstr) : jsstr * option jsstr :=
  match x with
  | [] => ([], None)
  | c :: x' =>
      if Ascii.eqb c char_dot then ([], Some x')
      else let '(a, b) := split_dot x' in (c :: a, b)
  end.

Definition decimal_value (x : jsstr) : option (Z * nat) :=
  match split_dot x with
  | (ip, None) =>
      match ip, parse_digits ip with
      | _ :: _, Some a => Some (dval a, O)
      | _, _ => None
      end
  | (ip, Some fp) =>
      match ip, fp, parse_digits ip, parse_digits fp with
      | _ :: _, _ :: _, Some a, Some b => Some (dval (a ++ b), List.length fp)
      | _, _, _, _ => None
      end
  end.

(** A decimal string in the shape the formatters produce: no trailing
    decimal point, and no trailing zero after a decimal point. *)
Definition trimmed (x : jsstr) : Prop :=
  match rev x with
  | c :: _ => c <> char_dot /\ (In char_dot x -> c <> char_0)
  | [] => False
  end.

(** The shape both formatters produce (used in proofs): an integer part ([0] when empty)
    followed, when the stripped fraction is not empty, by a point and the
    stripped fraction. *)
Definition join (i f : jsstr) : jsstr :=
  (match i with [] => [char_0] | _ => i end)
    ++ (match strip_zeros f with [] => [] | _ => char_dot :: strip_zeros f end).

End Dec.

(** ** viem's [formatUnits] / [formatEther]

    Library code (viem, [utils/unit/formatUnits.ts]), called by
    [useEvmBalance.formattedBalance]:
<<
  let display = value.toString()
  const negative = display.startsWith('-')
  if (negative) display = display.slice(1)
  display = display.padStart(decimals, '0')
  let [integer, fraction] = [
    display.slice(0, display.length - decimals),
    display.slice(display.length - decimals),
  ]
  fraction = fraction.replace(/(0+)$/, '')
  return `${negative ? '-' : ''}${integer || '0'}${fraction ? `.${fraction}` : ''}`
>>
    and [formatEther(wei) = formatUnits(wei, 18)]. *)
Module Viem.
Import Dec.

Definition formatUnits (value : Z) (decimals : nat) : jsstr :=
  let display0 := Z_toString value in
  let negative := match display0 with c :: _ => Ascii.eqb c char_minus | [] => false end in
  let display1 := if negative then tl display0 else display0 in
  let display := padStart display1 decimals char_0 in
  let integer := firstn (List.length display - decimals) display in
  let fraction := skipn (List.length display - decimals) display in
  let fraction' := strip_zeros fraction in
  (if negative then [char_minus] else [])
    ++ (match integer with [] => [char_0] | _ => integer end)
    ++ (match fraction' with [] => [] | _ => char_dot :: fraction' end).

Definition formatEther (wei : Z) : jsstr := formatUnits wei 18.

End Viem.

(** ** JavaScript numbers (IEEE-754 binary64) *)
Module JsNumber.
Import Dec.

Definition prec : Z := 53.
Definition emax : Z := 1024.

Definition number := spec_float.

(** [Number(n)] of a bigint [n] (and the value of an integer literal):
    rounding to nearest, ties to even. *)
Definition of_Z (n : Z) : number := binary_normalize prec emax n 0 false.

(** [x / y] *)
Definition div (x y : number) : number := SFdiv prec emax x y.

(** The second half of SpecFloat's [binary_round_aux] (renormalisation
    after rounding and overflow check), named to split proofs about
    rounding in two. *)
Definition round_finish (sx : bool) (m e : Z) : number :=
  let '(mrs'', e'') := shr_fexp prec emax m e loc_Exact in
  match shr_m mrs'' with
  | Z0 => S754_zero sx
  | Zpos m => if Z.leb e'' (Z.sub emax prec) then S754_finite sx m e'' else S754_infinity sx
  | _ => S754_nan
  end.

(** [m * 2^e >= 10^21] *)
Definition large (m : positive) (e : Z) : bool :=
  if 0 <=? e then 10 ^ 21 <=? Zpos m * 2 ^ e else 10 ^ 21 * 2 ^ (- e) <=? Zpos m.

(** The integer [n] of [Number.prototype.toFixed] (ECMA-262, step 10.a):
    [n / 10^f - x] as close to zero as possible, the larger [n] on a tie,
    for [x = m * 2^e]. *)
Definition fixed_n (m : positive) (e : Z) (f : nat) : Z :=
  let scaled := Zpos m * 10 ^ Z.of_nat f in
  if 0 <=? e then scaled * 2 ^ e
  else (2 * scaled + 2 ^ (- e)) / 2 ^ (1 - e).

(** Steps 10.b to 11 of [toFixed]: the digits of [n], padded with zeros
    to at least [f + 1] digits, with a point before the last [f]. *)
Definition fixed_digits (n : Z) (f : nat) : jsstr :=
  let m := if n =? 0 then [char_0] else Z_toString n in
  match f with
  | O => m
  | S _ =>
      let k := List.length m in
      let m' := if (k <=? f)%nat then List.repeat char_0 (f + 1 - k) ++ m else m in
      let k' := List.length m' in
      firstn (k' - f) m' ++ char_dot :: skipn (k' - f) m'
  end.

(** [x.toFixed(f)] for [0 <= f <= 100].  For [|x| >= 10^21] the result is
    [Number::toString(x)] (exponent notation), which is not modelled:
    [None]. *)
Definition toFixed (x : number) (f : nat) : option jsstr :=
  match x with
  | S754_nan => Some (s "NaN")
  | S754_infinity false => Some (s "Infinity")
  | S754_infinity true => Some (s "-Infinity")
  | S754_zero _ => Some (fixed_digits 0 f)
  | S754_finite sg m e =>
      if large m e then None
      else Some ((if sg then [char_minus] else []) ++ fixed_digits (fixed_n m e f) f)
  end.

End JsNumber.

(** ** [formatSol] *)
Module SolFormat.
Import Dec JsNumber.

(** [LAMPORTS_PER_SOL] of [@solana/web3.js]. *)
Definition LAMPORTS_PER_SOL : number := of_Z 1000000000.

(**
<<
function formatSol(lamports: number) {
  const maxDecimalPlaces = 9;
  const roundedStr = (lamports / LAMPORTS_PER_SOL).toFixed(maxDecimalPlaces);
  return roundedStr.replace(/0+$/, "").replace(/\.$/, "");
}
>> *)
Definition formatSol (lamports : number) : option jsstr :=
  let maxDecimalPlaces := 9%nat in
  match toFixed (div lamports LAMPORTS_PER_SOL) maxDecimalPlaces with
  | Some roundedStr => Some (strip_dot (strip_zeros roundedStr))
  | None => None
  end.

End SolFormat.

(** ** The polling hooks [useEvmBalance] and [useSolanaBalance]

    One hook instance as a state machine.  The React state [balance], the
    effect with dependencies [[getBalance, poll]], the interval timer and
    the outstanding [getBalance] requests are explicit.  Events:
    - [EMount c]: the component mounts, rendering with configuration [c]
      (fresh [useState(undefined)], then the effect runs);
    - [ERender c]: a later render with [c]; when a dependency of the
      effect changed ([getBalance] changes with [address]; [client]
      and [connection] are module constants), the previous effect is
      cleaned up ([clearInterval]) and the effect runs again;
    - [EUnmount]: the cleanup runs and the component is gone; a later
      [setBalance] is ignored by React;
    - [EManual]: a call of the [getBalance] returned by the last render
      (the [onSuccess] of a widget);
    - [EAdvance]: one time unit (millisecond) passes; an interval
      created at time [t0] fires at [t0 + 500], [t0 + 1000], ...;
    - [EResolve id o]: the network request [id] settles with [o].
    A [getBalance] call that passes the [!address] guard is a fetch: it
    is logged in [fetches] with its time and address. *)
Module Poller.
Import Dec JsNumber SolFormat Viem.

Inductive kind := Evm | Sol.

(** The hook arguments that change between renders. *)
Record config := { address : option string; poll : bool }.

(** [!address] is [false]: the address is neither [null] nor empty. *)
Definition truthy (a : option string) : bool :=
  match a with
  | Some x => negb (String.eqb x EmptyString)
  | None => false
  end.

Definition opt_str_eqb (a b : option string) : bool :=
  match a, b with
  | Some x, Some y => String.eqb x y
  | None, None => true
  | _, _ => false
  end.

(** How a balance request settles: resolved with a value, or rejected. *)
Inductive outcome := Ok (v : Z) | Err.

(** An outstanding [client.getBalance] / [connection.getBalance] call,
    made by the hook instance [req_epoch]. *)
Record request := { req_id : nat; req_epoch : nat; req_address : string }.

Record state := {
  mounted : bool;
  epoch : nat;                          (* component instance *)
  cfg : config;                         (* arguments of the last render *)
  balance : option Z;                   (* [useState<bigint | undefined>] *)
  timer : option (nat * option string); (* interval: start time, captured address *)
  pending : list request;
  next_id : nat;
  clock : nat;
  fetches : list (nat * string);        (* fetches started: time, address *)
  errors : list nat;                    (* [console.error] calls, by request *)
  rejections : list nat                 (* [getBalance] promises rejected, by request *)
}.

Inductive event :=
  | EMount (c : config)
  | ERender (c : config)
  | EUnmount
  | EManual
  | EAdvance
  | EResolve (id : nat) (o : outcome).

Definition initial : state := {|
  mounted := false; epoch := 0; cfg := {| address := None; poll := false |};
  balance := None; timer := None; pending := []; next_id := 0; clock := 0;
  fetches := []; errors := []; rejections := [] |}.

Definition with_balance (b : option Z) (st : state) : state := {|
  mounted := mounted st; epoch := epoch st; cfg := cfg st; balance := b;
  timer := timer st; pending := pending st; next_id := next_id st; clock := clock st;
  fetches := fetches st; errors := errors st; rejections := rejections st |}.

Definition with_timer (t : option (nat * option string)) (st : state) : state := {|
  mounted := mounted st; epoch := epoch st; cfg := cfg st; balance := balance st;
  timer := t; pending := pending st; next_id := next_id st; clock := clock st;
  fetches := fetches st; errors := errors st; rejections := rejections st |}.

Definition with_pending (p : list request) (st : state) : state := {|
  mounted := mounted st; epoch := epoch st; cfg := cfg st; balance := balance st;
  timer := timer st; pending := p; next_id := next_id st; clock := clock st;
  fetches := fetches st; errors := errors st; rejections := rejections st |}.

Definition with_cfg (c : config) (st : state) : state := {|
  mounted := mounted st; epoch := epoch st; cfg := c; balance := balance st;
  timer := timer st; pending := pending st; next_id := next_id st; clock := clock st;
  fetches := fetches st; errors := errors st; rejections := rejections st |}.

Definition with_clock (t : nat) (st : state) : state := {|
  mounted := mounted st; epoch := epoch st; cfg := cfg st; balance := balance st;
  timer := timer st; pending := pending st; next_id := next_id st; clock := t;
  fetches := fetches st; errors := errors st; rejections := rejections st |}.

Definition log_error (id : nat) (st : state) : state := {|
  mounted := mounted st; epoch := epoch st; cfg := cfg st; balance := balance st;
  timer := timer st; pending := pending st; next_id := next_id st; clock := clock st;
  fetches := fetches st; errors := errors st ++ [id]; rejections := rejections st |}.

Definition log_rejection (id : nat) (st : state) : state := {|
  mounted := mounted st; epoch := epoch st; cfg := cfg st; balance := balance st;
  timer := timer st; pending := pending st; next_id := next_id st; clock := clock st;
  fetches := fetches st; errors := errors st; rejections := rejections st ++ [id] |}.

(** A fetch of [x] starts: logged, with a fresh request id. *)
Definition start_fetch (x : string) (st : state) : state := {|
  mounted := mounted st; epoch := epoch st; cfg := cfg st; balance := balance st;
  timer := timer st; pending := pending st; next_id := S (next_id st); clock := clock st;
  fetches := fetches st ++ [(clock st, x)]; errors := errors st;
  rejections := rejections st |}.

(** A new instance of the component: [useState(undefined)]. *)
Definition fresh (c : config) (st : state) : state := {|
  mounted := true; epoch := S (epoch st); cfg := c; balance := None;
  timer := None; pending := pending st; next_id := next_id st; clock := clock st;
  fetches := fetches st; errors := errors st; rejections := rejections st |}.

Definition unmounted (st : state) : state := {|
  mounted := false; epoch := epoch st; cfg := cfg st; balance := balance st;
  timer := timer st; pending := pending st; next_id := next_id st; clock := clock st;
  fetches := fetches st; errors := errors st; rejections := rejections st |}.

(** [setBalance(v)] of instance [ep]: ignored once that instance is gone. *)
Definition set_balance (ep : nat) (v : Z) (st : state) : state :=
  if mounted st && Nat.eqb ep (epoch st) then with_balance (Some v) st else st.

Fixpoint find_request (id : nat) (p : list request) : option request :=
  match p with
  | [] => None
  | r :: p' => if Nat.eqb (req_id r) id then Some r else find_request id p'
  end.

Definition remove_request (id : nat) (p : list request) : list request :=
  filter (fun r => negb (Nat.eqb (req_id r) id)) p.

(** The [useEffect] dependencies [[getBalance, poll]] changed. *)
Definition deps_changed (c c' : config) : bool :=
  negb (opt_str_eqb (address c) (address c') && Bool.eqb (poll c) (poll c')).

Section Machine.

Variable k : kind.
(** [new PublicKey(x)] succeeds (does not throw). *)
Variable is_pubkey : string -> bool.

(** [getBalance] of a render whose [address] was [a].
    EVM:
<<
    if (!address) return;
    const balance = await client.getBalance({ address });
    setBalance(balance);
>>
    non-EVM:
<<
    if (!address) return;
    try {
      const lamports = await connection.getBalance(new PublicKey(address));
      setBalance(BigInt(lamports));
    } catch (error) { console.error(...); setBalance(BigInt(0)); }
>>
    Everything up to the [await] runs synchronously; the continuation
    runs at [EResolve]. *)
Definition get_balance (a : option string) (st : state) : state :=
  match a with
  | None => st
  | Some x =>
      if String.eqb x EmptyString then st
      else
        let id := next_id st in
        let st1 := start_fetch x st in
        let req := {| req_id := id; req_epoch := epoch st; req_address := x |} in
        match k with
        | Evm => with_pending (pending st1 ++ [req]) st1
        | Sol =>
            if is_pubkey x then with_pending (pending st1 ++ [req]) st1
            else set_balance (epoch st) 0 (log_error id st1)
        end
  end.

(** The continuation of [getBalance] after the request [id] settles. *)
Definition resolve (id : nat) (o : outcome) (st : state) : state :=
  match find_request id (pending st) with
  | None => st
  | Some r =>
      let st1 := with_pending (remove_request id (pending st)) st in
      match k, o with
      | _, Ok v => set_balance (req_epoch r) v st1
      | Evm, Err => log_rejection id st1
      | Sol, Err => set_balance (req_epoch r) 0 (log_error id st1)
      end
  end.

(**
<<
  useEffect(() => {
    if (!poll) { return; }
    getBalance();
    const interval = setInterval(getBalance, 500);
    return () => clearInterval(interval);
  }, [getBalance, poll]);
>> *)
Definition effect (c : config) (st : state) : state :=
  if poll c then with_timer (Some (clock st, address c)) (get_balance (address c) st)
  else st.

Definition cleanup (st : state) : state := with_timer None st.

Definition step (e : event) (st : state) : state :=
  match e with
  | EMount c => if mounted st then st else effect c (fresh c st)
  | ERender c =>
      if mounted st then
        if deps_changed (cfg st) c then effect c (cleanup (with_cfg c st))
        else with_cfg c st
      else st
  | EUnmount => if mounted st then unmounted (cleanup st) else st
  | EManual => get_balance (address (cfg st)) st
  | EAdvance =>
      let st1 := with_clock (S (clock st)) st in
      match timer st1 with
      | Some (t0, a) =>
          if Nat.eqb ((clock st1 - t0) mod 500) 0 then get_balance a st1 else st1
      | None => st1
      end
  | EResolve id o => resolve id o st
  end.

Definition run (evs : list event) (st : state) : state :=
  fold_left (fun st e => step e st) evs st.

(** [formattedBalance]:
<<
  useMemo(() => {
    if (balance === undefined) return undefined;
    return formatEther(balance);            // EVM
    return formatSol(Number(balance));      // non-EVM
  }, [balance]);
>> *)
Definition format_balance (b : Z) : option jsstr :=
  match k with
  | Evm => Some (formatEther b)
  | Sol => formatSol (of_Z b)
  end.

Definition formatted (st : state) : option jsstr :=
  match balance st with
  | None => None
  | Some b => format_balance b
  end.

End Machine.

End Poller.

(** ** The screen composer [SignedInScreen] *)
Module Screen.
Import Poller.

(** The default of the [poll] parameter of both hooks. *)
Definition poll_default : bool := false.

(** One hook call of [SignedInScreen]: kind, network, [poll] argument. *)
Record hook_use := { hook_kind : kind; hook_network : string; hook_poll : bool }.

(**
<<
  useEvmBalance(evmAddress, client, true);
  useEvmBalance(evmAddress, sepoliaClient, true);
  useSolanaBalance(solanaAddress, solanaMainnetConnection);
  useSolanaBalance(solanaAddress, solanaDevnetConnection, true);
>> *)
Definition hooks : list hook_use := [
  {| hook_kind := Evm; hook_network := "base"; hook_poll := true |};
  {| hook_kind := Evm; hook_network := "base-sepolia"; hook_poll := true |};
  {| hook_kind := Sol; hook_network := "solana-mainnet"; hook_poll := poll_default |};
  {| hook_kind := Sol; hook_network := "solana-devnet"; hook_poll := true |}
].

(** The configuration a hook receives at a render. *)
Definition hook_config (h : hook_use) (evmAddress solanaAddress : option string) : config :=
  {| address := match hook_kind h with Evm => evmAddress | Sol => solanaAddress end;
     poll := hook_poll h |}.

(** The widgets given a [getBalance] as [onSuccess]. *)
Inductive widget := FundWalletBase | EVMTransaction | FundWalletSolana | SolanaTransaction.

(** Index in [hooks] of the hook whose [getBalance] the widget receives. *)
Definition on_success (w : widget) : nat :=
  match w with
  | FundWalletBase => 0
  | EVMTransaction => 1
  | FundWalletSolana => 2
  | SolanaTransaction => 3
  end.

(** The widget is rendered ([{evmAddress && ...}], [{isSignedIn && ...}]). *)
Definition widget_rendered (w : widget) (evmAddress solanaAddress : option string)
    (isSignedIn : bool) : bool :=
  match w with
  | FundWalletBase | EVMTransaction => truthy evmAddress && isSignedIn
  | FundWalletSolana | SolanaTransaction => truthy solanaAddress && isSignedIn
  end.

End Screen.

(** ** The balance card [UserBalance] (src/unnamed/part_000)

    What the component renders, as data:
    - [loading]: the [LoadingSkeleton] ([balance === undefined]);
    - [shown]: the balance row ([balance !== undefined]): icon [src],
      the balance text, the [sr-only] currency name;
    - [faucet]: the faucet paragraph ([faucetUrl && faucetName && ...]):
      the currency in [Get testnet ... from], the link [href], its text.
    [env_solana] is [process.env.NEXT_PUBLIC_CDP_CREATE_SOLANA_ACCOUNT]. *)
Module UserBalanceView.
Import Dec Poller.

Record view := {
  loading : bool;
  shown : option (string * jsstr * string);
  faucet : option (string * string * string)
}.

Definition UserBalance (env_solana : option string) (balance : option jsstr)
    (faucetUrl faucetName : option string) : view :=
  let isSolana := truthy env_solana in
  {| loading := match balance with None => true | Some _ => false end;
     shown :=
       match balance with
       | None => None
       | Some b =>
           Some (if isSolana then "/sol.svg"%string else "/eth.svg"%string, b,
                 if isSolana then "Solana"%string else "Ethereum"%string)
       end;
     faucet :=
       if truthy faucetUrl && truthy faucetName then
         match faucetUrl, faucetName with
         | Some u, Some n => Some (if isSolana then "SOL"%string else "ETH"%string, u, n)
         | _, _ => None
         end
       else None |}.

End UserBalanceView.

(** ** The four balance cards of [SignedInScreen] *)
Module ScreenCards.
Import Dec Poller Screen UserBalanceView.

(** A [<UserBalance balance={...} faucetName=... faucetUrl=... />]: the
    index in [hooks] of the hook whose [formattedBalance] it shows, and
    its faucet props. *)
Record card := {
  card_hook : nat;
  card_faucetUrl : option string;
  card_faucetName : option string
}.

Definition cards : list card := [
  {| card_hook := 0; card_faucetUrl := None; card_faucetName := None |};
  {| card_hook := 1;
     card_faucetUrl := Some "https://portal.cdp.coinbase.com/products/faucet"%string;
     card_faucetName := Some "Base Sepolia Faucet"%string |};
  {| card_hook := 2; card_faucetUrl := None; card_faucetName := None |};
  {| card_hook := 3;
     card_faucetUrl := Some "https://portal.cdp.coinbase.com/products/faucet?network=solana-devnet"%string;
     card_faucetName := Some "Solana Devnet Faucet"%string |}
].

(** The card rendered from the state [st] of its hook. *)
Definition card_view (env_solana : option string) (c : card) (st : state) : option view :=
  match nth_error hooks (card_hook c) with
  | Some h =>
      Some (UserBalance env_solana (formatted (hook_kind h) st)
              (card_faucetUrl c) (card_faucetName c))
  | None => None
  end.

End ScreenCards.

(** * Facts about decimal strings *)
Module DecFacts.
Import Dec.

Lemma char_digit_digit_char d : 0 <= d < 10 -> char_digit (digit_char d) = Some d.
Proof.
  intros Hd.
  assert (d = 0 \/ d = 1 \/ d = 2 \/ d = 3 \/ d = 4 \/ d = 5 \/ d = 6 \/ d = 7
          \/ d = 8 \/ d = 9) as Hc by lia.
  repeat destruct Hc as [-> | Hc]; try reflexivity; subst; reflexivity.
Qed.

Lemma char_digit_not c d (Hc : char_digit c = Some d) :
  Ascii.eqb c char_dot = false /\ Ascii.eqb c char_minus = false /\ 0 <= d < 10.
Proof.
  split; [|split].
  - destruct (Ascii.eqb_spec c char_dot) as [->|]; [discriminate Hc | reflexivity].
  - destruct (Ascii.eqb_spec c char_minus) as [->|]; [discriminate Hc | reflexivity].
  - unfold char_digit in Hc.
    destruct ((48 <=? Z.of_nat (nat_of_ascii c)) && (Z.of_nat (nat_of_ascii c) <=? 57))
      eqn:E; [|discriminate].
    apply andb_prop in E as [E1 E2]. apply Z.leb_le in E1, E2.
    injection Hc as <-. lia.
Qed.

Lemma parse_digits_app a b da db :
  parse_digits a = Some da -> parse_digits b = Some db ->
  parse_digits (a ++ b) = Some (da ++ db).
Proof.
  revert da. induction a as [|c a IH]; intros da Ha Hb; simpl in *.
  - injection Ha as <-. exact Hb.
  - destruct (char_digit c) as [d|]; [|discriminate].
    destruct (parse_digits a) as [da'|]; [|discriminate].
    injection Ha as <-. rewrite (IH da' eq_refl Hb). reflexivity.
Qed.

Lemma parse_digits_length x ds : parse_digits x = Some ds -> List.length ds = List.length x.
Proof.
  revert ds. induction x as [|c x IH]; intros ds H; simpl in *.
  - injection H as <-. reflexivity.
  - destruct (char_digit c); [|discriminate].
    destruct (parse_digits x) as [ds'|]; [|discriminate].
    injection H as <-. simpl. rewrite (IH ds' eq_refl). reflexivity.
Qed.

Lemma parse_digits_firstn_skipn x ds i :
  parse_digits x = Some ds ->
  parse_digits (firstn i x) = Some (firstn i ds) /\
  parse_digits (skipn i x) = Some (skipn i ds).
Proof.
  revert ds i. induction x as [|c x IH]; intros ds i H; simpl in *.
  - injection H as <-. destruct i; simpl; auto.
  - destruct (char_digit c) as [d|] eqn:Ec; [|discriminate].
    destruct (parse_digits x) as [ds'|] eqn:Ex; [|discriminate].
    injection H as <-. destruct i as [|i]; simpl.
    + rewrite Ec, Ex. auto.
    + destruct (IH ds' i eq_refl) as [H1 H2]. rewrite Ec, H1. auto.
Qed.

Lemma parse_digits_zeros k : parse_digits (List.repeat char_0 k) = Some (List.repeat 0 k).
Proof. induction k as [|k IH]; simpl; [reflexivity | rewrite IH; reflexivity]. Qed.

Lemma dval_fold l acc :
  fold_left (fun acc d => acc * 10 + d) l acc = acc * 10 ^ Z.of_nat (List.length l) + dval l.
Proof.
  unfold dval. revert acc. induction l as [|d l IH]; intros acc; cbn [fold_left List.length].
  - simpl. lia.
  - rewrite (IH (acc * 10 + d)), (IH (0 * 10 + d)).
    rewrite Nat2Z.inj_succ, Z.pow_succ_r by lia. lia.
Qed.

Lemma dval_app a b : dval (a ++ b) = dval a * 10 ^ Z.of_nat (List.length b) + dval b.
Proof. unfold dval at 1. rewrite fold_left_app. apply dval_fold. Qed.

Lemma dval_zeros k l : dval (List.repeat 0 k ++ l) = dval l.
Proof.
  induction k as [|k IH]; [reflexivity|].
  simpl. unfold dval in *. simpl. exact IH.
Qed.

Lemma dval_zeros_r k : dval (List.repeat 0 k) = 0.
Proof. pose proof (dval_zeros k []) as H. rewrite app_nil_r in H. exact H. Qed.

Lemma dval_nonneg ds : Forall (fun d => 0 <= d) ds -> 0 <= dval ds.
Proof.
  intros H. unfold dval.
  enough (G : forall acc, 0 <= acc -> 0 <= fold_left (fun acc d => acc * 10 + d) ds acc)
    by (apply G; lia).
  induction H as [|d ds Hd _ IH]; intros acc Hacc; simpl; [exact Hacc|].
  apply IH. lia.
Qed.

Lemma dec_aux_spec fuel : forall n acc dacc, (fuel <> 0)%nat ->
  0 <= n < 10 ^ Z.of_nat fuel -> parse_digits acc = Some dacc ->
  exists ds, parse_digits (dec_aux fuel n acc) = Some (ds ++ dacc) /\ dval ds = n
             /\ ds <> [].
Proof.
  induction fuel as [|f IH]; intros n acc dacc Hf Hn Hacc.
  - congruence.
  - simpl.
    assert (Hm : 0 <= n mod 10 < 10) by (apply Z.mod_pos_bound; lia).
    assert (Hacc' : parse_digits (digit_char (n mod 10) :: acc)
                    = Some (n mod 10 :: dacc))
      by (simpl; rewrite char_digit_digit_char by exact Hm; rewrite Hacc; reflexivity).
    destruct (n <? 10) eqn:Hlt.
    + apply Z.ltb_lt in Hlt. exists [n]. rewrite Hacc'.
      rewrite Z.mod_small by lia. split; [reflexivity | split; [reflexivity | discriminate]].
    + apply Z.ltb_ge in Hlt.
      rewrite Nat2Z.inj_succ, Z.pow_succ_r in Hn by lia.
      assert (Hf' : f <> 0%nat).
      { intros ->. simpl in Hn. lia. }
      destruct (IH (n / 10) _ _ Hf'
                  ltac:(split; [apply Z.div_pos | apply Z.div_lt_upper_bound]; lia)
                  Hacc') as (ds & H1 & H2 & _).
      exists (ds ++ [n mod 10]). rewrite <- app_assoc. simpl. split; [exact H1|].
      split; [|destruct ds; discriminate].
      rewrite dval_app. simpl. unfold dval at 2. simpl.
      rewrite H2. pose proof (Z.div_mod n 10). lia.
Qed.

Lemma nat_to_dec_spec n : 0 <= n ->
  exists ds, parse_digits (nat_to_dec n) = Some ds /\ dval ds = n /\ ds <> [].
Proof.
  intros Hn. unfold nat_to_dec.
  destruct (dec_aux_spec (S (Z.to_nat (Z.log2 n))) n [] [] ltac:(discriminate))
    as (ds & H1 & H2 & H3); [|reflexivity|].
  - split; [exact Hn|].
    rewrite Nat2Z.inj_succ, Z2Nat.id by apply Z.log2_nonneg.
    destruct (Z.eq_dec n 0) as [->|Hn0]; [reflexivity|].
    apply Z.lt_le_trans with (2 ^ Z.succ (Z.log2 n)).
    + apply Z.log2_spec. lia.
    + apply Z.pow_le_mono_l. split; [lia|lia].
  - rewrite app_nil_r in H1. exists ds. auto.
Qed.

Lemma Z_toString_nonneg n : 0 <= n -> Z_toString n = nat_to_dec n.
Proof. intros Hn. unfold Z_toString. destruct (n <? 0) eqn:E; [lia | reflexivity]. Qed.

(** Trailing zeros *)
Lemma drop_zeros_spec r : exists k, r = List.repeat char_0 k ++ drop_zeros r.
Proof.
  induction r as [|c r [k Hk]]; [exists O; reflexivity|].
  simpl. destruct (Ascii.eqb_spec c char_0) as [->|].
  - exists (S k). simpl. f_equal. exact Hk.
  - exists O. reflexivity.
Qed.

Lemma drop_zeros_head r c r' : drop_zeros r = c :: r' -> c <> char_0.
Proof.
  induction r as [|c0 r IH]; simpl; [discriminate|].
  destruct (Ascii.eqb_spec c0 char_0); [exact IH|].
  intros H. injection H as <- _. assumption.
Qed.

Lemma strip_zeros_spec x : exists k, x = strip_zeros x ++ List.repeat char_0 k.
Proof.
  unfold strip_zeros. destruct (drop_zeros_spec (rev x)) as [k Hk].
  exists k. rewrite <- (rev_involutive x) at 1. rewrite Hk at 1. rewrite rev_app_distr.
  rewrite rev_repeat. reflexivity.
Qed.

Lemma strip_zeros_last x : forall c r, rev (strip_zeros x) = c :: r -> c <> char_0.
Proof.
  intros c r. unfold strip_zeros. rewrite rev_involutive. apply drop_zeros_head.
Qed.

Lemma parse_digits_strip_zeros x ds : parse_digits x = Some ds ->
  exists k ds', parse_digits (strip_zeros x) = Some ds' /\ ds = ds' ++ List.repeat 0 k
                /\ List.length x = (List.length (strip_zeros x) + k)%nat.
Proof.
  intros H. destruct (strip_zeros_spec x) as [k Hk].
  rewrite Hk in H.
  pose proof (parse_digits_firstn_skipn _ _ (List.length (strip_zeros x)) H) as [H1 H2].
  rewrite firstn_app, Nat.sub_diag, firstn_all in H1. simpl in H1.
  rewrite ?app_nil_r in H1.
  rewrite skipn_app, Nat.sub_diag, skipn_all in H2. simpl in H2.
  rewrite parse_digits_zeros in H2.
  exists k, (firstn (List.length (strip_zeros x)) ds). split; [exact H1|].
  split.
  - rewrite <- (firstn_skipn (List.length (strip_zeros x)) ds) at 1.
    injection H2 as <-. reflexivity.
  - rewrite Hk at 1. rewrite length_app, repeat_length. reflexivity.
Qed.

Lemma split_dot_digits x rest ds : parse_digits x = Some ds ->
  split_dot (x ++ rest) = (x ++ fst (split_dot rest), snd (split_dot rest)).
Proof.
  revert ds. induction x as [|c x IH]; intros ds H; simpl in *.
  - destruct (split_dot rest); reflexivity.
  - destruct (char_digit c) as [d|] eqn:Ec; [|discriminate].
    destruct (parse_digits x) as [ds'|]; [|discriminate].
    destruct (char_digit_not _ _ Ec) as [-> _].
    rewrite (IH ds' eq_refl). reflexivity.
Qed.

Lemma split_dot_digits_only x ds : parse_digits x = Some ds -> split_dot x = (x, None).
Proof.
  intros H. pose proof (split_dot_digits x [] ds H) as E.
  rewrite app_nil_r in E. simpl in E. rewrite app_nil_r in E. exact E.
Qed.

Lemma digits_not_dot x ds : parse_digits x = Some ds -> ~ In char_dot x.
Proof.
  revert ds. induction x as [|c x IH]; intros ds H; simpl in *; [tauto|].
  destruct (char_digit c) as [d|] eqn:Ec; [|discriminate].
  destruct (parse_digits x) as [ds'|]; [|discriminate].
  destruct (char_digit_not _ _ Ec) as [Hd _].
  intros [Heq|Hin].
  - subst c. rewrite Ascii.eqb_refl in Hd. discriminate.
  - exact (IH _ eq_refl Hin).
Qed.

Lemma join_value i f di df :
  parse_digits i = Some di -> parse_digits f = Some df ->
  exists N k, decimal_value (join i f) = Some (N, k)
    /\ (k <= List.length f)%nat
    /\ N * 10 ^ Z.of_nat (List.length f)
       = (dval di * 10 ^ Z.of_nat (List.length f) + dval df) * 10 ^ Z.of_nat k.
Proof.
  intros Hi Hf.
  set (i' := match i with [] => [char_0] | _ => i end).
  assert (Hi' : parse_digits i' = Some (match i with [] => [0] | _ => di end)
                /\ dval (match i with [] => [0] | _ => di end) = dval di /\ i' <> []).
  { subst i'. destruct i; [injection Hi as <-; repeat split; discriminate|].
    repeat split; [exact Hi | discriminate]. }
  destruct Hi' as (Hi1 & Hi2 & Hi3).
  set (di' := match i with [] => [0] | _ => di end) in *.
  destruct (parse_digits_strip_zeros f df Hf) as (z & df' & Hf1 & Hf2 & Hf3).
  unfold join. fold i'.
  destruct (strip_zeros f) as [|c f'] eqn:Es.
  - rewrite app_nil_r. unfold decimal_value.
    rewrite (split_dot_digits_only i' di' Hi1).
    destruct i' as [|c0 i0]; [congruence|]. rewrite Hi1.
    exists (dval di'), O. split; [reflexivity|]. split; [lia|].
    simpl in Hf1. injection Hf1 as <-. subst df. simpl in Hf3.
    simpl app. rewrite dval_zeros_r, Hi2. simpl. lia.
  - unfold decimal_value.
    rewrite (split_dot_digits i' _ di' Hi1). simpl. rewrite app_nil_r.
    destruct i' as [|c0 i0]; [congruence|].
    pose proof Hi1 as Hi1'. pose proof Hf1 as Hf1'. simpl in Hi1', Hf1'. rewrite Hi1', Hf1'.
    exists (dval (di' ++ df')), (List.length (c :: f')).
    split; [reflexivity|]. split; [lia|].
    rewrite Hf3, Hf2, !dval_app, Hi2, dval_zeros_r, repeat_length.
    rewrite (parse_digits_length _ _ Hf1).
    rewrite Nat2Z.inj_add, !Z.pow_add_r by lia. ring.
Qed.

Lemma join_trimmed i f di df :
  parse_digits i = Some di -> parse_digits f = Some df -> trimmed (join i f).
Proof.
  intros Hi Hf. unfold join, trimmed.
  assert (Hi' : exists di', parse_digits (match i with [] => [char_0] | _ => i end) = Some di'
                /\ (match i with [] => [char_0] | _ => i end) <> []).
  { destruct i; [eexists; split; [reflexivity | discriminate]|].
    eexists; split; [exact Hi | discriminate]. }
  destruct Hi' as (di' & Hi1 & Hi2).
  set (i' := match i with [] => [char_0] | _ => i end) in *.
  destruct (parse_digits_strip_zeros f df Hf) as (z & df' & Hf1 & _ & _).
  pose proof (strip_zeros_last f) as Hlast.
  destruct (strip_zeros f) as [|c f'] eqn:Es.
  - rewrite app_nil_r.
    destruct (rev i') as [|c r] eqn:Er.
    + apply (f_equal (@rev ascii)) in Er. rewrite rev_involutive in Er. contradiction.
    + assert (Hin : In c i') by (apply in_rev; rewrite Er; left; reflexivity).
      split.
      * intros ->. exact (digits_not_dot _ _ Hi1 Hin).
      * intros Hdot. exfalso. exact (digits_not_dot _ _ Hi1 Hdot).
  - rewrite rev_app_distr. simpl rev.
    destruct (rev f') as [|c' r'] eqn:Ef'.
    + simpl. simpl in Hlast. rewrite Ef' in Hlast. simpl in Hlast.
      specialize (Hlast c [] eq_refl).
      split; [|intros _; exact Hlast].
      intros ->. simpl in Hf1.
      destruct (char_digit char_dot) eqn:E; [|discriminate].
      destruct (char_digit_not _ _ E) as [Hd _]. discriminate Hd.
    + simpl. simpl in Hlast. rewrite Ef' in Hlast. simpl in Hlast.
      specialize (Hlast c' (r' ++ [c]) eq_refl).
      split; [|intros _; exact Hlast].
      intros ->.
      assert (Hin : In char_dot (c :: f')).
      { right. apply in_rev. rewrite Ef'. left. reflexivity. }
      exact (digits_not_dot _ _ Hf1 Hin).
Qed.

End DecFacts.

(** * The EVM formatter *)
Module EvmFormat.
Import Dec DecFacts Viem.

Lemma formatEther_join B : 0 <= B ->
  exists D ds, parse_digits D = Some ds /\ dval ds = B /\ (18 <= List.length D)%nat
    /\ formatEther B = join (firstn (List.length D - 18) D) (skipn (List.length D - 18) D).
Proof.
  intros HB. destruct (nat_to_dec_spec B HB) as (ds & H1 & H2 & H3).
  unfold formatEther, formatUnits. rewrite (Z_toString_nonneg B HB).
  destruct (nat_to_dec B) as [|c r] eqn:ED.
  { simpl in H1. injection H1 as <-. congruence. }
  assert (Hc : Ascii.eqb c char_minus = false).
  { simpl in H1. destruct (char_digit c) as [d|] eqn:Ec; [|discriminate].
    apply (char_digit_not _ _ Ec). }
  rewrite Hc. cbv zeta.
  exists (padStart (c :: r) 18 char_0),
         (List.repeat 0 (18 - List.length (c :: r)) ++ ds).
  split; [apply parse_digits_app; [apply parse_digits_zeros | exact H1]|].
  split; [rewrite dval_zeros; exact H2|].
  split; [unfold padStart; rewrite length_app, repeat_length; lia|].
  reflexivity.
Qed.

(** C5: for every non-negative balance [B], [formatEther B] is a decimal
    string with at most 18 fractional digits whose value is exactly
    [B / 10^18]: it reads as [N / 10^k] with [k <= 18] and
    [N * 10^18 = B * 10^k]. *)
Theorem formatEther_denotes_exactly (B : Z) (HB : 0 <= B) :
  exists N k, decimal_value (formatEther B) = Some (N, k) /\ (k <= 18)%nat
    /\ N * 10 ^ 18 = B * 10 ^ Z.of_nat k.
Proof.
  destruct (formatEther_join B HB) as (D & ds & H1 & H2 & Hlen & ->).
  set (i := (List.length D - 18)%nat).
  destruct (parse_digits_firstn_skipn D ds i H1) as [Hi Hf].
  destruct (join_value _ _ _ _ Hi Hf) as (N & k & Hv & Hk & HN).
  assert (Hlf : List.length (skipn i D) = 18%nat) by (rewrite length_skipn; lia).
  rewrite Hlf in Hk, HN. change (Z.of_nat 18) with 18 in HN.
  exists N, k. split; [exact Hv|]. split; [exact Hk|].
  rewrite HN. f_equal. rewrite <- H2.
  rewrite <- (firstn_skipn i ds) at 3. rewrite dval_app.
  rewrite (parse_digits_length _ _ Hf), Hlf. reflexivity.
Qed.

Lemma formatEther_denotes_exactly_witness :
  0 <= 1500000000000000000 /\
  (exists N k, decimal_value (formatEther 1500000000000000000) = Some (N, k)
    /\ (k <= 18)%nat /\ N * 10 ^ 18 = 1500000000000000000 * 10 ^ Z.of_nat k).
Proof.
  split; [lia|]. apply formatEther_denotes_exactly. lia.
Defined.

End EvmFormat.

(** * Facts about binary64 rounding *)
Module FloatFacts.
Import JsNumber.

Lemma digits2_pos_size p : digits2_pos p = Pos.size p.
Proof. induction p as [p IH|p IH|]; simpl; congruence. Qed.

Lemma Zdigits2_log2 p : Zpos (digits2_pos p) = Z.log2 (Zpos p) + 1.
Proof.
  rewrite digits2_pos_size. destruct p; simpl; try rewrite Pos2Z.inj_succ; reflexivity.
Qed.

Lemma Zdigits2_bounds (q d : Z) : 1 <= d -> 2 ^ (d - 1) <= q < 2 ^ d -> Zdigits2 q = d.
Proof.
  intros Hd Hq.
  assert (0 < 2 ^ (d - 1)) by (apply Z.pow_pos_nonneg; lia).
  destruct q as [|p|p]; [lia| |lia].
  simpl. rewrite Zdigits2_log2.
  rewrite (Z.log2_unique (Zpos p) (d - 1)); [lia|lia|].
  replace (Z.succ (d - 1)) with d by lia. exact Hq.
Qed.

Lemma fexp_val x : -1021 <= x -> fexp prec emax x = x - 53.
Proof. intros Hx. unfold fexp, emin, prec, emax. lia. Qed.

Lemma shr_fexp_53 q e l : 2 ^ 52 <= q < 2 ^ 53 -> -1000 <= e ->
  shr_fexp prec emax q e l = (shr_record_of_loc q l, e).
Proof.
  intros Hq He. unfold shr_fexp.
  rewrite (Zdigits2_bounds q 53) by lia. rewrite fexp_val by lia.
  replace (53 + e - 53 - e) with 0 by lia. reflexivity.
Qed.

Lemma shr_fexp_54 q e l : 2 ^ 53 <= q < 2 ^ 54 -> -1000 <= e ->
  shr_fexp prec emax q e l = (shr_1 (shr_record_of_loc q l), e + 1).
Proof.
  intros Hq He. unfold shr_fexp.
  rewrite (Zdigits2_bounds q 54) by lia. rewrite fexp_val by lia.
  replace (54 + e - 53 - e) with 1 by lia. reflexivity.
Qed.

Lemma shr_1_pos p r s0 :
  shr_1 (Build_shr_record (Zpos p) r s0)
  = Build_shr_record (Z.div2 (Zpos p)) (Z.odd (Zpos p)) (r || s0).
Proof. destruct p; reflexivity. Qed.

Lemma binary_round_aux_split sx mx ex lx :
  binary_round_aux prec emax sx mx ex lx
  = let '(mrs', e') := shr_fexp prec emax mx ex lx in
    round_finish sx (round_nearest_even (shr_m mrs') (loc_of_shr_record mrs')) e'.
Proof. reflexivity. Qed.

Lemma round_finish_ok q' e : 2 ^ 52 <= q' <= 2 ^ 53 -> -1000 <= e <= 900 ->
  exists M E, round_finish false q' e = S754_finite false M E
    /\ Zpos M * 2 ^ (E - e) = q' /\ e <= E <= e + 1.
Proof.
  intros Hq He. unfold round_finish.
  destruct (Z.eq_dec q' (2 ^ 53)) as [->|Hne].
  - rewrite shr_fexp_54 by lia.
    change (shr_1 (shr_record_of_loc (2 ^ 53) loc_Exact))
      with (Build_shr_record 4503599627370496 false false).
    cbv beta iota. cbn [shr_m].
    replace (Z.leb (e + 1) (Z.sub emax prec)) with true
      by (symmetry; apply Z.leb_le; unfold emax, prec; lia).
    exists 4503599627370496%positive, (e + 1).
    split; [reflexivity|]. replace (e + 1 - e) with 1 by lia. split; [reflexivity | lia].
  - rewrite shr_fexp_53 by lia. cbv beta iota. cbn [shr_m shr_record_of_loc].
    destruct q' as [|p|p]; [lia| |lia].
    replace (Z.leb e (Z.sub emax prec)) with true
      by (symmetry; apply Z.leb_le; unfold emax, prec; lia).
    exists p, e. split; [reflexivity|]. replace (e - e) with 0 by lia.
    split; [lia | lia].
Qed.

Lemma shr_m_record_of_loc m l : shr_m (shr_record_of_loc m l) = m.
Proof. destruct l as [|[]]; reflexivity. Qed.

Lemma loc_record_of_loc m l : loc_of_shr_record (shr_record_of_loc m l) = l.
Proof. destruct l as [|[]]; reflexivity. Qed.

Lemma new_location_even_spec M2 r : Z.even M2 = true ->
  new_location M2 r = if r =? 0 then loc_Exact else loc_Inexact (Z.compare (2 * r) M2).
Proof. intros H. unfold new_location. rewrite H. reflexivity. Qed.

Lemma finish_ulp q' e M2 X (k : Z) : 0 <= k <= 1 ->
  2 ^ 52 <= q' <= 2 ^ 53 -> -900 <= e <= 800 ->
  2 * Z.abs (2 ^ k * q' * M2 - X) <= 2 ^ k * M2 ->
  exists M E, round_finish false q' (e + k) = S754_finite false M E
    /\ e <= E <= e + 2 /\ 2 * Z.abs (Zpos M * 2 ^ (E - e) * M2 - X) <= 2 ^ k * M2.
Proof.
  intros Hk Hq He HX.
  destruct (round_finish_ok q' (e + k)) as (M & E & H1 & H2 & H3); [lia|lia|].
  exists M, E. split; [exact H1|]. split; [lia|].
  replace (E - e) with ((E - (e + k)) + k) by lia.
  rewrite Z.pow_add_r by lia. rewrite Z.mul_assoc, H2.
  replace (q' * 2 ^ k * M2) with (2 ^ k * q' * M2) by ring. exact HX.
Qed.

Lemma finish_ulp0 q' e M2 X :
  2 ^ 52 <= q' <= 2 ^ 53 -> -900 <= e <= 800 -> 2 * Z.abs (q' * M2 - X) <= M2 ->
  exists M E, round_finish false q' e = S754_finite false M E
    /\ e <= E <= e + 2 /\ 2 * Z.abs (Zpos M * 2 ^ (E - e) * M2 - X) <= 1 * M2.
Proof.
  intros Hq He HX. pose proof (finish_ulp q' e M2 X 0) as H.
  rewrite Z.add_0_r in H. change (2 ^ 0) with 1 in H. rewrite !Z.mul_1_l in H.
  destruct H as (M & E & H1 & H2 & H3); [lia|lia|lia|lia|].
  exists M, E. repeat split; try lia; assumption.
Qed.

Lemma finish_ulp1 q' e M2 X :
  2 ^ 52 <= q' <= 2 ^ 53 -> -900 <= e <= 800 -> 2 * Z.abs (2 * q' * M2 - X) <= 2 * M2 ->
  exists M E, round_finish false q' (e + 1) = S754_finite false M E
    /\ e <= E <= e + 2 /\ 2 * Z.abs (Zpos M * 2 ^ (E - e) * M2 - X) <= 2 * M2.
Proof.
  intros Hq He HX. exact (finish_ulp q' e M2 X 1 ltac:(lia) Hq He HX).
Qed.

(** Rounding of a quotient [q + r / M2] with 53 or 54 significant bits, as
    [SFdiv] does it: the result is within half a unit in the last place. *)
Lemma round_div_bound q e r M2 :
  0 < M2 -> Z.even M2 = true -> 0 <= r < M2 ->
  2 ^ 52 <= q < 2 ^ 54 -> -900 <= e <= 800 ->
  exists M E, binary_round_aux prec emax false q e (new_location M2 r) = S754_finite false M E
    /\ e <= E <= e + 2
    /\ 2 * Z.abs (Zpos M * 2 ^ (E - e) * M2 - (q * M2 + r))
       <= (if q <? 2 ^ 53 then 1 else 2) * M2.
Proof.
  intros HM2 Hev Hr Hq He.
  rewrite binary_round_aux_split, (new_location_even_spec M2 r Hev).
  destruct (q <? 2 ^ 53) eqn:Hq53.
  - apply Z.ltb_lt in Hq53.
    rewrite shr_fexp_53 by lia. cbv beta iota.
    rewrite shr_m_record_of_loc, loc_record_of_loc.
    destruct (r =? 0) eqn:Er0; [apply Z.eqb_eq in Er0 | apply Z.eqb_neq in Er0].
    + subst r. apply finish_ulp0; cbn [round_nearest_even]; first [lia | nia].
    + destruct (2 * r ?= M2) eqn:Ec; cbn [round_nearest_even].
      * apply Z.compare_eq_iff in Ec. destruct (Z.even q); apply finish_ulp0; first [lia | nia].
      * change (2 * r < M2) in Ec. apply finish_ulp0; first [lia | nia].
      * change (2 * r > M2) in Ec. apply finish_ulp0; first [lia | nia].
  - apply Z.ltb_ge in Hq53.
    rewrite shr_fexp_54 by lia. cbv beta iota.
    destruct q as [|p|p]; [lia| |lia].
    pose proof (Z.div2_odd (Zpos p)) as Hsplit.
    destruct (r =? 0) eqn:Er0; [apply Z.eqb_eq in Er0 | apply Z.eqb_neq in Er0].
    + subst r. cbn [shr_record_of_loc]. rewrite shr_1_pos. cbn [orb].
      destruct (Z.odd (Zpos p)) eqn:Eo; cbn [loc_of_shr_record round_nearest_even shr_m];
        simpl Z.b2z in Hsplit.
      * destruct (Z.even (Z.div2 (Zpos p))); apply finish_ulp1; first [lia | nia].
      * apply finish_ulp1; first [lia | nia].
    + destruct (2 * r ?= M2) eqn:Ec; cbn [shr_record_of_loc]; rewrite shr_1_pos; cbn [orb];
        destruct (Z.odd (Zpos p)) eqn:Eo; cbn [loc_of_shr_record round_nearest_even shr_m];
        simpl Z.b2z in Hsplit; apply finish_ulp1; first [lia | nia].
Qed.

Lemma round_finish_exact q' e : 2 ^ 52 <= Zpos q' < 2 ^ 53 -> -1000 <= e <= 900 ->
  round_finish false (Zpos q') e = S754_finite false q' e.
Proof.
  intros Hq He. unfold round_finish.
  rewrite shr_fexp_53 by lia. cbv beta iota. cbn [shr_m shr_record_of_loc].
  replace (Z.leb e (Z.sub emax prec)) with true
    by (symmetry; apply Z.leb_le; unfold emax, prec; lia).
  reflexivity.
Qed.

Lemma iter_xO_pow p k : Zpos (Pos.iter xO p k) = Zpos p * 2 ^ Zpos k.
Proof.
  induction k as [|k IH] using Pos.peano_ind.
  - change (Pos.iter xO p 1) with (xO p). rewrite Pos2Z.inj_xO. lia.
  - rewrite Pos.iter_succ, Pos2Z.inj_xO, IH, Pos2Z.inj_succ, Z.pow_succ_r by lia. ring.
Qed.

(** [Number(L)] is exact below [2^53], with a 53-bit significand. *)
Lemma of_Z_exact L : 0 < L < 2 ^ 53 ->
  exists m e, of_Z L = S754_finite false m e /\ Zpos m = L * 2 ^ (- e)
    /\ 2 ^ 52 <= Zpos m < 2 ^ 53 /\ -52 <= e <= 0 /\ 2 ^ (e + 52) <= L < 2 ^ (e + 53).
Proof.
  intros HL. destruct L as [|p|p]; [lia| |lia].
  assert (Hd : 1 <= Zpos (digits2_pos p) <= 53 /\
               2 ^ (Zpos (digits2_pos p) - 1) <= Zpos p < 2 ^ Zpos (digits2_pos p)).
  { rewrite Zdigits2_log2. pose proof (Z.log2_spec (Zpos p) ltac:(lia)) as Hs.
    pose proof (Z.log2_nonneg (Zpos p)).
    assert (Z.log2 (Zpos p) < 53).
    { destruct (Z.lt_ge_cases (Z.log2 (Zpos p)) 53) as [|Hge]; [assumption|].
      pose proof (Z.pow_le_mono_r 2 53 (Z.log2 (Zpos p)) ltac:(lia) Hge). lia. }
    replace (Z.log2 (Zpos p) + 1 - 1) with (Z.log2 (Zpos p)) by lia.
    rewrite <- Z.add_1_r in Hs. lia. }
  set (d := Zpos (digits2_pos p)) in *.
  unfold of_Z, binary_normalize, binary_round.
  rewrite Z.add_0_r. fold d. rewrite fexp_val by lia.
  unfold shl_align.
  destruct (Z.eq_dec d 53) as [Hd53|Hd53].
  - rewrite Hd53. cbn [Z.sub Z.add Z.opp Z.pos_sub Pos.compare]. simpl Z.sub.
    cbv beta iota. rewrite Hd53 in Hd. replace (53 - 1) with 52 in Hd by lia.
    rewrite binary_round_aux_split, shr_fexp_53 by lia. cbv beta iota.
    cbn [shr_m shr_record_of_loc loc_of_shr_record round_nearest_even].
    rewrite round_finish_exact by lia.
    exists p, 0. split; [reflexivity|]. simpl Z.add. lia.
  - destruct (d - 53 - 0) as [|k|k] eqn:Ek; [lia|lia|].
    cbv beta iota.
    rewrite binary_round_aux_split, shr_fexp_53.
    2:{ rewrite iter_xO_pow.
        replace (Zpos k) with (53 - d) by lia.
        split.
        - apply Z.le_trans with (2 ^ (d - 1) * 2 ^ (53 - d)).
          + rewrite <- Z.pow_add_r by lia. replace (d - 1 + (53 - d)) with 52 by lia. lia.
          + apply Z.mul_le_mono_nonneg_r; [apply Z.pow_nonneg; lia | lia].
        - apply Z.lt_le_trans with (2 ^ d * 2 ^ (53 - d)).
          + apply Z.mul_lt_mono_pos_r; [apply Z.pow_pos_nonneg; lia | lia].
          + rewrite <- Z.pow_add_r by lia. replace (d + (53 - d)) with 53 by lia. lia. }
    2:{ lia. }
    cbv beta iota.
    cbn [shr_m shr_record_of_loc loc_of_shr_record round_nearest_even].
    assert (Hm : 2 ^ 52 <= Zpos (Pos.iter xO p k) < 2 ^ 53).
    { rewrite iter_xO_pow. replace (Zpos k) with (53 - d) by lia.
      split.
      - apply Z.le_trans with (2 ^ (d - 1) * 2 ^ (53 - d)).
        + rewrite <- Z.pow_add_r by lia. replace (d - 1 + (53 - d)) with 52 by lia. lia.
        + apply Z.mul_le_mono_nonneg_r; [apply Z.pow_nonneg; lia | lia].
      - apply Z.lt_le_trans with (2 ^ d * 2 ^ (53 - d)).
        + apply Z.mul_lt_mono_pos_r; [apply Z.pow_pos_nonneg; lia | lia].
        + rewrite <- Z.pow_add_r by lia. replace (d + (53 - d)) with 53 by lia. lia. }
    rewrite round_finish_exact by lia.
    exists (Pos.iter xO p k), (d - 53). split; [reflexivity|].
    split; [rewrite iter_xO_pow; f_equal; f_equal; lia|].
    split; [exact Hm|]. split; [lia|].
    replace (d - 53 + 52) with (d - 1) by lia. replace (d - 53 + 53) with d by lia. lia.
Qed.

Lemma div_eucl_eq a b : Z.div_eucl a b = (a / b, a mod b).
Proof. unfold Z.div, Z.modulo. destruct (Z.div_eucl a b). reflexivity. Qed.

(** [SFdiv]'s quotient step for a 53-bit dividend and the divisor [1e9]. *)
Lemma div_core_1e9 m1 e1 : 2 ^ 52 <= Zpos m1 < 2 ^ 53 -> -60 <= e1 <= 0 ->
  SFdiv_core_binary prec emax (Zpos m1) e1 (Zpos 8388608000000000) (-23)
  = (Zpos m1 * 2 ^ 53 / 8388608000000000, e1 - 30,
     new_location 8388608000000000 (Zpos m1 * 2 ^ 53 mod 8388608000000000)).
Proof.
  intros Hm He. unfold SFdiv_core_binary.
  rewrite (Zdigits2_bounds (Zpos m1) 53) by lia.
  rewrite (Zdigits2_bounds (Zpos 8388608000000000) 53) by lia.
  rewrite fexp_val by lia. cbv zeta.
  match goal with |- context [Z.min ?a ?b] => replace (Z.min a b) with (e1 - 30) by lia end.
  match goal with |- context [Z.sub (Z.sub e1 ?x) (Z.sub e1 30)] =>
    replace (Z.sub (Z.sub e1 x) (Z.sub e1 30)) with 53 by lia end.
  cbv iota. rewrite Z.shiftl_mul_pow2 by lia. rewrite div_eucl_eq. reflexivity.
Qed.

End FloatFacts.

(** * The non-EVM formatter *)
Module SolFormatFacts.
Import Dec DecFacts JsNumber SolFormat FloatFacts.

Lemma LAMPORTS_PER_SOL_val : LAMPORTS_PER_SOL = S754_finite false 8388608000000000 (-23).
Proof. vm_compute. reflexivity. Qed.

Lemma div_lamports m1 e1 : 2 ^ 52 <= Zpos m1 < 2 ^ 53 -> -60 <= e1 <= 0 ->
  div (S754_finite false m1 e1) LAMPORTS_PER_SOL
  = binary_round_aux prec emax false (Zpos m1 * 2 ^ 53 / 8388608000000000) (e1 - 30)
      (new_location 8388608000000000 (Zpos m1 * 2 ^ 53 mod 8388608000000000)).
Proof.
  intros Hm He. rewrite LAMPORTS_PER_SOL_val. unfold div, SFdiv.
  rewrite div_core_1e9 by lia. reflexivity.
Qed.

(** Rounding to nine decimals recovers [L] when the float is within
    half a unit of [L / 10^9] in the ninth decimal. *)
Lemma fixed_n_nearest M E L : E < 0 ->
  2 * Z.abs (Zpos M * 10 ^ 9 - L * 2 ^ (- E)) < 2 ^ (- E) -> fixed_n M E 9 = L.
Proof.
  intros HE HD. unfold fixed_n.
  replace (0 <=? E) with false by (symmetry; apply Z.leb_gt; lia).
  change (10 ^ Z.of_nat 9) with (10 ^ 9).
  replace (1 - E) with (1 + - E) by lia. rewrite Z.pow_add_r by lia.
  set (P := 2 ^ (- E)) in *. assert (0 < P) by (apply Z.pow_pos_nonneg; lia).
  destruct (Z.abs_spec (Zpos M * 10 ^ 9 - L * P)) as [[? Hx]|[? Hx]]; rewrite Hx in HD;
    (apply Z.le_antisymm;
     [apply Z.lt_succ_r; apply Z.div_lt_upper_bound; [lia | nia]
     | apply Z.div_le_lower_bound; [lia | nia]]).
Qed.

Lemma drop_zeros_app u c w : c <> char_0 -> drop_zeros (u ++ c :: w) = drop_zeros u ++ c :: w.
Proof.
  intros Hc. induction u as [|x u IH]; simpl.
  - destruct (Ascii.eqb_spec c char_0); [contradiction | reflexivity].
  - destruct (Ascii.eqb x char_0); [exact IH | reflexivity].
Qed.

Lemma strip_zeros_dot a b : strip_zeros (a ++ char_dot :: b) = a ++ char_dot :: strip_zeros b.
Proof.
  unfold strip_zeros. rewrite rev_app_distr. simpl rev at 1. rewrite <- app_assoc. simpl app.
  rewrite drop_zeros_app by discriminate.
  rewrite rev_app_distr. simpl. rewrite rev_involutive, <- app_assoc. reflexivity.
Qed.

Lemma strip_dot_join a b da db : parse_digits a = Some da -> a <> [] ->
  parse_digits b = Some db -> strip_dot (strip_zeros (a ++ char_dot :: b)) = join a b.
Proof.
  intros Ha Hne Hb. rewrite strip_zeros_dot. unfold strip_dot, join.
  destruct (parse_digits_strip_zeros b db Hb) as (z & db' & Hb1 & _ & _).
  destruct a as [|c0 a0]; [contradiction|].
  destruct (strip_zeros b) as [|c f] eqn:Es.
  - rewrite rev_app_distr. simpl rev at 1. simpl app.
    cbv beta iota. rewrite Ascii.eqb_refl, rev_unit, rev_involutive, app_nil_r. reflexivity.
  - replace (rev ((c0 :: a0) ++ char_dot :: c :: f))
      with (rev (c :: f) ++ char_dot :: rev (c0 :: a0))
      by (rewrite rev_app_distr;
          change (rev (char_dot :: c :: f)) with (rev (c :: f) ++ [char_dot]);
          rewrite <- app_assoc; reflexivity).
    destruct (rev (c :: f)) as [|x l] eqn:Er.
    + apply (f_equal (@rev ascii)) in Er. rewrite rev_involutive in Er. discriminate.
    + simpl app.
      assert (Hx : In x (c :: f)) by (apply in_rev; rewrite Er; left; reflexivity).
      assert (Hxd : x <> char_dot) by (intros ->; exact (digits_not_dot _ _ Hb1 Hx)).
      apply Ascii.eqb_neq in Hxd. cbv beta iota. rewrite Hxd. reflexivity.
Qed.

(** The digits of [toFixed(9)] of an integer [n > 0] of nanos. *)
Lemma fixed_digits_9 n : 0 < n ->
  exists a b da db, fixed_digits n 9 = a ++ char_dot :: b
    /\ parse_digits a = Some da /\ a <> [] /\ parse_digits b = Some db
    /\ List.length b = 9%nat /\ dval da * 10 ^ 9 + dval db = n.
Proof.
  intros Hn. destruct (nat_to_dec_spec n ltac:(lia)) as (ds & H1 & H2 & H3).
  unfold fixed_digits. replace (n =? 0) with false by (symmetry; apply Z.eqb_neq; lia).
  rewrite Z_toString_nonneg by lia. cbv zeta.
  set (m := nat_to_dec n) in *.
  match goal with |- context [firstn (List.length ?X - _) ?X] =>
    remember X as m' eqn:Heq end.
  assert (Hm : exists ds', parse_digits m' = Some ds' /\ dval ds' = n
     /\ (10 <= List.length m')%nat).
  { subst m'. destruct (List.length m <=? _)%nat eqn:Ek.
    - apply Nat.leb_le in Ek.
      exists (List.repeat 0 (9 + 1 - List.length m) ++ ds).
      split; [apply parse_digits_app; [apply parse_digits_zeros | exact H1]|].
      split; [rewrite dval_zeros; exact H2|].
      rewrite length_app, repeat_length; lia.
    - apply Nat.leb_gt in Ek. exists ds. repeat split; auto. }
  destruct Hm as (ds' & Hp & Hv & Hl).
  set (i := (List.length m' - 9)%nat).
  destruct (parse_digits_firstn_skipn m' ds' i Hp) as [Ha Hb].
  exists (firstn i m'), (skipn i m'), (firstn i ds'), (skipn i ds').
  split; [reflexivity|]. split; [exact Ha|].
  split.
  { intros E. apply (f_equal (@List.length ascii)) in E. rewrite length_firstn in E.
    simpl in E. lia. }
  split; [exact Hb|].
  assert (Hlb : List.length (skipn i m') = 9%nat) by (rewrite length_skipn; lia).
  split; [exact Hlb|].
  assert (Eds : dval ds' = dval (firstn i ds' ++ skipn i ds'))
    by (rewrite firstn_skipn; reflexivity).
  rewrite <- Hv, Eds, dval_app.
  rewrite (parse_digits_length _ _ Hb), Hlb. reflexivity.
Qed.

(** The float quotient [Number(L) / LAMPORTS_PER_SOL] for
    [0 < L < 2^23 * 10^9]: a finite value that [toFixed(9)] rounds back to
    [L] nanos. *)
Lemma quotient_fixed L : 0 < L < 8388608000000000 ->
  exists M E, div (of_Z L) LAMPORTS_PER_SOL = S754_finite false M E
    /\ large M E = false /\ fixed_n M E 9 = L.
Proof.
  intros HL.
  destruct (of_Z_exact L ltac:(lia)) as (m1 & e1 & Hof & Hm1 & Hmb & He1 & HLb).
  rewrite Hof, div_lamports by lia.
  set (M2 := 8388608000000000) in *.
  set (q := Zpos m1 * 2 ^ 53 / M2). set (r := Zpos m1 * 2 ^ 53 mod M2).
  assert (Hq : 2 ^ 52 <= q < 2 ^ 54).
  { subst q. split.
    - apply Z.div_le_lower_bound; [lia|]. subst M2. nia.
    - apply Z.div_lt_upper_bound; [lia|]. subst M2. nia. }
  assert (Hr : 0 <= r < M2) by (apply Z.mod_pos_bound; lia).
  assert (Hqr : q * M2 + r = Zpos m1 * 2 ^ 53).
  { subst q r. rewrite Z.mul_comm. symmetry. apply Z.div_mod. lia. }
  destruct (round_div_bound q (e1 - 30) r M2 ltac:(lia) eq_refl Hr Hq ltac:(lia))
    as (M & E & HV & HE & Herr).
  exists M, E. split; [exact HV|].
  rewrite Hqr in Herr.
  (* the error bound of the rounding, in units of [10^9 * 2^(e1 - 30)] *)
  assert (Hc : (if q <? 2 ^ 53 then 1 else 2) * 10 ^ 9 < 2 ^ (30 - e1)).
  { destruct (Z.lt_ge_cases e1 0) as [Hneg|Hz].
    - assert (2 ^ 31 <= 2 ^ (30 - e1)) by (apply Z.pow_le_mono_r; lia).
      destruct (q <? 2 ^ 53); lia.
    - assert (He0 : e1 = 0) by lia. subst e1.
      assert (Hq53 : q < 2 ^ 53).
      { subst q. apply Z.div_lt_upper_bound; [lia|].
        rewrite Hm1. change (2 ^ (- 0)) with 1. subst M2. nia. }
      rewrite (proj2 (Z.ltb_lt _ _) Hq53). change (2 ^ (30 - 0)) with (2 ^ 30). lia. }
  set (cc := if q <? 2 ^ 53 then 1 else 2) in *.
  set (j := E - (e1 - 30)) in *.
  assert (HPj : 0 < 2 ^ j) by (apply Z.pow_pos_nonneg; lia).
  assert (HPE : 0 < 2 ^ (- E)) by (apply Z.pow_pos_nonneg; lia).
  assert (HP23 : 0 < 2 ^ 23) by lia.
  (* [Number(L) * 2^53 = L * 2^j * 2^(-E) * 2^23] and [M2 = 10^9 * 2^23] *)
  assert (Hsplit : Zpos m1 * 2 ^ 53 = L * (2 ^ j * 2 ^ (- E)) * 2 ^ 23).
  { rewrite Hm1, <- !Z.mul_assoc, <- !Z.pow_add_r by lia. f_equal. f_equal. lia. }
  assert (HD : Zpos M * 2 ^ j * M2 - Zpos m1 * 2 ^ 53
               = 2 ^ j * 2 ^ 23 * (Zpos M * 10 ^ 9 - L * 2 ^ (- E)))
    by (rewrite Hsplit; subst M2; change 8388608000000000 with (10 ^ 9 * 2 ^ 23); ring).
  rewrite HD, Z.abs_mul, (Z.abs_eq (2 ^ j * 2 ^ 23)) in Herr by lia.
  set (D := Z.abs (Zpos M * 10 ^ 9 - L * 2 ^ (- E))) in *.
  assert (HD2 : 2 * D * 2 ^ j <= cc * 10 ^ 9).
  { apply (Z.mul_le_mono_pos_r _ _ (2 ^ 23) HP23).
    apply Z.le_trans with (cc * M2); [nia|]. subst M2. lia. }
  assert (Hk : 2 ^ j * 2 ^ (- E) = 2 ^ (30 - e1)).
  { rewrite <- Z.pow_add_r by lia. f_equal. subst j. lia. }
  assert (HD3 : 2 * D < 2 ^ (- E)).
  { apply (Z.mul_lt_mono_pos_r (2 ^ j)); [exact HPj|]. nia. }
  assert (HEneg : E < 0) by lia.
  pose proof (fixed_n_nearest M E L HEneg HD3) as Hfix.
  split; [|exact Hfix].
  unfold large. replace (0 <=? E) with false by (symmetry; apply Z.leb_gt; lia).
  apply Z.leb_gt.
  assert (HDa : Zpos M * 10 ^ 9 - L * 2 ^ (- E) < 2 ^ (- E))
    by (subst D; destruct (Z.abs_spec (Zpos M * 10 ^ 9 - L * 2 ^ (- E))) as [[? Hx]|[? Hx]];
        rewrite Hx in HD3; lia).
  nia.
Qed.

Lemma formatSol_pos L : 0 < L < 8388608000000000 ->
  exists a b da db, formatSol (of_Z L) = Some (join a b)
    /\ parse_digits a = Some da /\ parse_digits b = Some db
    /\ List.length b = 9%nat /\ dval da * 10 ^ 9 + dval db = L.
Proof.
  intros HL. destruct (quotient_fixed L HL) as (M & E & HV & Hlarge & Hfix).
  destruct (fixed_digits_9 L ltac:(lia)) as (a & b & da & db & Hd & Ha & Hne & Hb & Hlb & Hv).
  exists a, b, da, db. unfold formatSol. rewrite HV. cbn [toFixed]. rewrite Hlarge, Hfix.
  rewrite app_nil_l, Hd, (strip_dot_join a b da db Ha Hne Hb). auto.
Qed.

(** C1 (amended): for every integer lamport balance
    [0 <= L <= 8388608000000000] (2^23 SOL, about 8.4 million SOL),
    [formatSol(Number(L))] is a decimal string with at most 9 fractional
    digits, no trailing zero after the point and no trailing bare point,
    whose value is exactly [L / 10^9]; and [formatSol] maps [1_500_000_000],
    [1_000_000_000] and [0] to ["1.5"], ["1"] and ["0"]. *)
Theorem formatSol_exact_upto_2_23_sol (L : Z) (HL : 0 <= L <= 8388608000000000) :
  (exists str N k, formatSol (of_Z L) = Some str /\ decimal_value str = Some (N, k)
     /\ (k <= 9)%nat /\ N * 10 ^ 9 = L * 10 ^ Z.of_nat k /\ trimmed str)
  /\ formatSol (of_Z 1500000000) = Some (s "1.5")
  /\ formatSol (of_Z 1000000000) = Some (s "1")
  /\ formatSol (of_Z 0) = Some (s "0").
Proof.
  split; [|split; [vm_compute; reflexivity | split; vm_compute; reflexivity]].
  destruct (Z.eq_dec L 0) as [->|HL0]; [|destruct (Z.eq_dec L 8388608000000000) as [->|HLm]].
  - exists (s "0"), 0, O.
    split; [vm_compute; reflexivity|]. split; [reflexivity|]. split; [lia|].
    split; [reflexivity|].
    cbv. split; [discriminate | intros [H|[]]; discriminate H].
  - (* the quotient [8388608] is exact *)
    exists (s "8388608"), 8388608, O.
    split; [vm_compute; reflexivity|]. split; [vm_compute; reflexivity|]. split; [lia|].
    split; [reflexivity|].
    vm_compute. split; [discriminate|]. intros H.
    repeat (destruct H as [H|H]; [discriminate H|]). destruct H.
  - destruct (formatSol_pos L ltac:(lia)) as (a & b & da & db & Hf & Ha & Hb & Hlb & Hv).
    destruct (join_value a b da db Ha Hb) as (N & k & Hval & Hk & HN).
    rewrite Hlb in Hk, HN. change (Z.of_nat 9) with 9 in HN. rewrite Hv in HN.
    exists (join a b), N, k.
    split; [exact Hf|]. split; [exact Hval|]. split; [exact Hk|]. split; [exact HN|].
    exact (join_trimmed a b da db Ha Hb).
Qed.

Lemma formatSol_exact_upto_2_23_sol_witness :
  0 <= 7777777777777777 <= 8388608000000000 /\
  ((exists str N k, formatSol (of_Z 7777777777777777) = Some str
     /\ decimal_value str = Some (N, k)
     /\ (k <= 9)%nat /\ N * 10 ^ 9 = 7777777777777777 * 10 ^ Z.of_nat k /\ trimmed str)
  /\ formatSol (of_Z 1500000000) = Some (s "1.5")
  /\ formatSol (of_Z 1000000000) = Some (s "1")
  /\ formatSol (of_Z 0) = Some (s "0")).
Proof.
  split; [lia|]. apply formatSol_exact_upto_2_23_sol. lia.
Defined.

(** C1 counterexample: the balance [8388608000000001] lamports, one above
    [2^23 * 10^9], is formatted as ["8388608.000000002"], the float
    quotient by [1e9] being rounded; so the output does not denote [L / 10^9] for every
    non-negative [L]. *)
Lemma formatSol_counterexample :
  formatSol (of_Z 8388608000000001) = Some (s "8388608.000000002") /\
  ~ (forall L, 0 <= L -> exists str N k, formatSol (of_Z L) = Some str
       /\ decimal_value str = Some (N, k) /\ N * 10 ^ 9 = L * 10 ^ Z.of_nat k).
Proof.
  assert (E : formatSol (of_Z 8388608000000001) = Some (s "8388608.000000002"))
    by (vm_compute; reflexivity).
  split; [exact E|].
  intros H. destruct (H 8388608000000001 ltac:(lia)) as (str & N & k & H1 & H2 & H3).
  rewrite E in H1. injection H1 as <-. vm_compute in H2. injection H2 as <- <-.
  cbn in H3. lia.
Qed.

End SolFormatFacts.

(** * Facts about the pollers *)
Module PollerFacts.
Import Poller Screen.

Implicit Types (k : kind) (p : string -> bool) (st : state) (x : string) (a : option string)
  (e : event) (evs : list event) (c : config) (n : nat).

Ltac proj_simpl :=
  cbn [mounted epoch cfg balance timer pending next_id clock fetches errors rejections
       with_balance with_timer with_pending with_cfg with_clock log_error log_rejection
       start_fetch fresh unmounted cleanup] in *.

Lemma run_cons k p e evs st : run k p (e :: evs) st = run k p evs (step k p e st).
Proof. reflexivity. Qed.

Lemma run_app k p l1 l2 st : run k p (l1 ++ l2) st = run k p l2 (run k p l1 st).
Proof. unfold run. apply fold_left_app. Qed.

Lemma repeat_snoc {A} (x : A) n : List.repeat x (S n) = List.repeat x n ++ [x].
Proof. induction n as [|n IH]; [reflexivity|]. change (x :: List.repeat x (S n) = x :: List.repeat x n ++ [x]). rewrite IH. reflexivity. Qed.

Lemma run_invariant k p (Inv : state -> Prop) evs : forall st,
  Inv st -> (forall e st', In e evs -> Inv st' -> Inv (step k p e st')) -> Inv (run k p evs st).
Proof.
  induction evs as [|e evs IH]; intros st H0 Hs; [exact H0|].
  rewrite run_cons. apply IH.
  - apply Hs; [left; reflexivity | exact H0].
  - intros e' st' Hin. apply Hs. right. exact Hin.
Qed.

Lemma set_balance_cases ep v st :
  set_balance ep v st = st \/ set_balance ep v st = with_balance (Some v) st.
Proof. unfold set_balance. destruct (_ && _); auto. Qed.


Lemma get_balance_falsy k p a st : truthy a = false -> get_balance k p a st = st.
Proof.
  destruct a as [x|]; [|reflexivity]. simpl. intros H.
  destruct (String.eqb x EmptyString); [reflexivity | discriminate].
Qed.

Lemma get_balance_pres k p a st :
  mounted (get_balance k p a st) = mounted st /\ timer (get_balance k p a st) = timer st
  /\ clock (get_balance k p a st) = clock st /\ cfg (get_balance k p a st) = cfg st
  /\ epoch (get_balance k p a st) = epoch st
  /\ rejections (get_balance k p a st) = rejections st.
Proof.
  unfold get_balance. destruct a as [x|]; [|repeat split].
  destruct (String.eqb x EmptyString); [repeat split|].
  destruct k; [repeat split|]. destruct (p x); [repeat split|].
  destruct (set_balance_cases (epoch st) 0 (log_error (next_id st) (start_fetch x st)))
    as [-> | ->]; repeat split.
Qed.

Lemma get_balance_fetch k p x st : x <> EmptyString ->
  fetches (get_balance k p (Some x) st) = fetches st ++ [(clock st, x)].
Proof.
  intros Hx. unfold get_balance.
  destruct (String.eqb_spec x EmptyString); [contradiction|].
  destruct k; [reflexivity|]. destruct (p x); [reflexivity|].
  destruct (set_balance_cases (epoch st) 0 (log_error (next_id st) (start_fetch x st)))
    as [-> | ->]; reflexivity.
Qed.



Lemma div500_facts n :
  (n = 500 * (n / 500) + n mod 500 /\ n mod 500 < 500 /\
   S n = 500 * (S n / 500) + S n mod 500 /\ S n mod 500 < 500)%nat.
Proof.
  pose proof (Nat.div_mod_eq n 500). pose proof (Nat.div_mod_eq (S n) 500).
  pose proof (Nat.mod_upper_bound n 500 ltac:(discriminate)).
  pose proof (Nat.mod_upper_bound (S n) 500 ltac:(discriminate)). lia.
Qed.

(** [n] time units after an interval started at [t0] (with a fetch at
    [t0]), the fetches are at [t0], [t0 + 500], ..., up to [t0 + n]. *)
Lemma advance_schedule k p x : x <> EmptyString -> forall n st pre t0,
  mounted st = true -> timer st = Some (t0, Some x) -> clock st = t0 ->
  fetches st = pre ++ [(t0, x)] ->
  let st' := run k p (List.repeat EAdvance n) st in
  mounted st' = true /\ timer st' = Some (t0, Some x) /\ clock st' = (t0 + n)%nat
  /\ fetches st' = pre ++ map (fun i => ((t0 + 500 * i)%nat, x)) (seq 0 (S (n / 500))).
Proof.
  intros Hx n. induction n as [|n IH]; intros st pre t0 Hm Ht Hc Hf; cbv zeta.
  - simpl. rewrite Hf, Nat.add_0_r. auto.
  - rewrite repeat_snoc, run_app.
    destruct (IH st pre t0 Hm Ht Hc Hf) as (Hm' & Ht' & Hc' & Hf').
    set (st1 := run k p (List.repeat EAdvance n) st) in *.
    change (run k p [EAdvance] st1) with (step k p EAdvance st1).
    unfold step. cbn [with_clock timer clock]. rewrite Ht', Hc'.
    pose proof (div500_facts n) as Hd.
    replace (S (t0 + n) - t0)%nat with (S n) by lia.
    destruct (Nat.eqb_spec (S n mod 500) 0%nat) as [H0|H0].
    + destruct (get_balance_pres k p (Some x) (with_clock (S (t0 + n)) st1))
        as (G1 & G2 & G3 & _).
      rewrite G1, G2, G3, get_balance_fetch by exact Hx. cbn [with_clock mounted timer clock fetches].
      split; [exact Hm'|]. split; [exact Ht'|]. split; [lia|].
      assert (Hq : (S n / 500 = S (n / 500))%nat) by lia.
      assert (Ht0 : (t0 + 500 * (0 + S (n / 500)))%nat = S (t0 + n)) by lia.
      rewrite Hf', Hq, (seq_S (S (n / 500)) 0), map_app, app_assoc. cbn [map].
      rewrite Ht0. reflexivity.
    + cbn [with_clock mounted timer clock fetches].
      split; [exact Hm'|]. split; [exact Ht'|]. split; [lia|].
      rewrite Hf'. replace (S n / 500)%nat with (n / 500)%nat by lia. reflexivity.
Qed.

(** The fetches made by the interval depend only on the timer and the
    clock. *)
Lemma advance_same_ticks k p n : forall st1 st2,
  timer st1 = timer st2 -> clock st1 = clock st2 ->
  exists D, fetches (run k p (List.repeat EAdvance n) st1) = fetches st1 ++ D
         /\ fetches (run k p (List.repeat EAdvance n) st2) = fetches st2 ++ D.
Proof.
  induction n as [|n IH]; intros st1 st2 Ht Hc.
  - exists []. rewrite !app_nil_r. auto.
  - change (List.repeat EAdvance (S n)) with (EAdvance :: List.repeat EAdvance n).
    rewrite !run_cons.
    assert (Hstep : exists E, fetches (step k p EAdvance st1) = fetches st1 ++ E
        /\ fetches (step k p EAdvance st2) = fetches st2 ++ E
        /\ timer (step k p EAdvance st1) = timer (step k p EAdvance st2)
        /\ clock (step k p EAdvance st1) = clock (step k p EAdvance st2)).
    { unfold step. cbn [with_clock timer clock]. rewrite <- Ht, <- Hc.
      destruct (timer st1) as [[t0 a]|] eqn:Et1.
      - destruct (Nat.eqb _ 0).
        + destruct (get_balance_pres k p a (with_clock (S (clock st1)) st1)) as (_ & A2 & A3 & _).
          destruct (get_balance_pres k p a (with_clock (S (clock st1)) st2)) as (_ & B2 & B3 & _).
          rewrite A2, A3, B2, B3. cbn [with_clock timer clock].
          destruct (truthy a) eqn:Ea.
          * destruct a as [x|]; [|discriminate].
            assert (Hx : x <> EmptyString)
              by (intros ->; discriminate Ea).
            rewrite !get_balance_fetch by exact Hx. cbn [with_clock fetches clock].
            exists [(S (clock st1), x)]. repeat split; congruence.
          * rewrite !get_balance_falsy by exact Ea. exists []. rewrite !app_nil_r.
            cbn [with_clock fetches timer clock]. repeat split; congruence.
        + exists []. rewrite !app_nil_r. cbn [with_clock fetches timer clock].
          repeat split; congruence.
      - exists []. rewrite !app_nil_r. cbn [with_clock fetches timer clock].
        repeat split; congruence. }
    destruct Hstep as (E & H1 & H2 & H3 & H4).
    destruct (IH _ _ H3 H4) as (D & G1 & G2).
    exists (E ++ D). rewrite G1, G2, H1, H2, !app_assoc. auto.
Qed.


Lemma get_balance_rejections k p a st :
  rejections (get_balance k p a st) = rejections st.
Proof. apply (get_balance_pres k p a st). Qed.

Lemma step_sol_rejections p e st : rejections (step Sol p e st) = rejections st.
Proof.
  destruct e as [c|c| | | |id o]; unfold step.
  - destruct (mounted st); [reflexivity|]. unfold effect.
    destruct (poll c); [|reflexivity]. cbn [rejections with_timer].
    rewrite get_balance_rejections. reflexivity.
  - destruct (mounted st); [|reflexivity]. destruct (deps_changed (cfg st) c); [|reflexivity].
    unfold effect. destruct (poll c); [|reflexivity]. cbn [rejections with_timer].
    rewrite get_balance_rejections. reflexivity.
  - destruct (mounted st); reflexivity.
  - apply get_balance_rejections.
  - cbn [with_clock timer]. destruct (timer st) as [[t a]|]; [|reflexivity].
    destruct (Nat.eqb _ _); [|reflexivity]. rewrite get_balance_rejections. reflexivity.
  - unfold resolve. destruct (find_request id (pending st)) as [r|]; [|reflexivity].
    destruct o as [v|].
    + destruct (set_balance_cases (req_epoch r) v (with_pending (remove_request id (pending st)) st))
        as [-> | ->]; reflexivity.
    + destruct (set_balance_cases (req_epoch r) 0
                  (log_error id (with_pending (remove_request id (pending st)) st)))
        as [-> | ->]; reflexivity.
Qed.

(** C2 (amended): when every render gives the poller a [null] (or empty)
    address, no fetch is ever made and Balance stays undefined, for both
    kinds of poller; polling enabled, the interval timer is nevertheless
    started on mount (its ticks do nothing). *)
Theorem null_address_no_fetch (k : kind) (p : string -> bool) (evs : list event)
  (Hevs : forall c, In (EMount c) evs \/ In (ERender c) evs -> truthy (address c) = false) :
  fetches (run k p evs initial) = [] /\ balance (run k p evs initial) = None
  /\ (forall c, poll c = true -> truthy (address c) = false ->
        timer (run k p [EMount c] initial) = Some (0%nat, address c)).
Proof.
  set (I := fun st => truthy (address (cfg st)) = false
        /\ (forall t a, timer st = Some (t, a) -> truthy a = false)
        /\ pending st = [] /\ fetches st = [] /\ balance st = None).
  assert (HI : I (run k p evs initial)).
  { apply run_invariant.
    - unfold I. cbn. repeat split. intros t a H. discriminate H.
    - intros e st Hin (Ha & Ht & Hp & Hf & Hb). unfold I.
      destruct e as [c|c| | | |id o]; unfold step.
      + assert (Hc : truthy (address c) = false) by (apply Hevs; left; exact Hin).
        destruct (mounted st); [repeat split; assumption|].
        unfold effect. destruct (poll c).
        * rewrite get_balance_falsy by exact Hc. proj_simpl.
          repeat split; try assumption. intros t a' E. injection E as _ <-. exact Hc.
        * proj_simpl. repeat split; try assumption. intros t a' E. discriminate E.
      + assert (Hc : truthy (address c) = false) by (apply Hevs; right; exact Hin).
        destruct (mounted st); [|repeat split; assumption].
        destruct (deps_changed (cfg st) c).
        * unfold effect. destruct (poll c).
          -- rewrite get_balance_falsy by exact Hc. proj_simpl.
             repeat split; try assumption. intros t a' E. injection E as _ <-. exact Hc.
          -- proj_simpl. repeat split; try assumption. intros t a' E. discriminate E.
        * proj_simpl. repeat split; assumption.
      + destruct (mounted st); [|repeat split; assumption].
        proj_simpl. repeat split; try assumption. intros t a' E. discriminate E.
      + rewrite get_balance_falsy by exact Ha. repeat split; assumption.
      + proj_simpl. destruct (timer st) as [[t a]|] eqn:Et.
        * destruct (Nat.eqb _ _).
          -- rewrite get_balance_falsy by exact (Ht t a eq_refl). proj_simpl.
             repeat split; try assumption. rewrite Et. exact Ht.
          -- proj_simpl. repeat split; try assumption. rewrite Et. exact Ht.
        * proj_simpl. repeat split; try assumption. rewrite Et. exact Ht.
      + unfold resolve. rewrite Hp. cbn [find_request]. repeat split; assumption. }
  destruct HI as (_ & _ & _ & Hf & Hb). split; [exact Hf|]. split; [exact Hb|].
  intros c Hp Hc. change (run k p [EMount c] initial) with (step k p (EMount c) initial).
  unfold step. cbn [mounted initial]. unfold effect. rewrite Hp.
  rewrite get_balance_falsy by exact Hc. reflexivity.
Qed.

Lemma null_address_no_fetch_witness :
  (forall c, In (EMount c) [EMount {| address := None; poll := true |}; EAdvance; EManual]
          \/ In (ERender c) [EMount {| address := None; poll := true |}; EAdvance; EManual]
          -> truthy (address c) = false) /\
  (fetches (run Evm (fun _ => true) [EMount {| address := None; poll := true |}; EAdvance; EManual]
              initial) = []
   /\ balance (run Evm (fun _ => true)
                 [EMount {| address := None; poll := true |}; EAdvance; EManual] initial) = None
   /\ (forall c, poll c = true -> truthy (address c) = false ->
         timer (run Evm (fun _ => true) [EMount c] initial) = Some (0%nat, address c))).
Proof.
  assert (H : forall c, In (EMount c) [EMount {| address := None; poll := true |}; EAdvance; EManual]
          \/ In (ERender c) [EMount {| address := None; poll := true |}; EAdvance; EManual]
          -> truthy (address c) = false).
  { intros c [Hin|Hin]; simpl in Hin;
      destruct Hin as [Hin|[Hin|[Hin|[]]]]; try discriminate Hin.
    injection Hin as <-. reflexivity. }
  split; [exact H|]. apply null_address_no_fetch. exact H.
Defined.

(** C2 counterexample: with a [null] address and polling enabled, the
    interval timer is started on mount, for both kinds of poller. *)
Lemma null_address_timer_started :
  timer (run Evm (fun _ => true) [EMount {| address := None; poll := true |}] initial)
    = Some (0%nat, None)
  /\ timer (run Sol (fun _ => true) [EMount {| address := None; poll := true |}] initial)
    = Some (0%nat, None).
Proof. split; reflexivity. Qed.

(** C3: when a fetch of the non-EVM poller fails, while the poller is
    mounted, Balance becomes exactly [0] and the error is logged: both
    when the request rejects and when [new PublicKey(address)] throws;
    and no run of the non-EVM poller ever rejects a [getBalance] promise. *)
Theorem sol_failure_sets_zero (p : string -> bool) (st : state) (id : nat) (r : request)
  (Hf : find_request id (pending st) = Some r) (Hm : mounted st = true)
  (He : req_epoch r = epoch st) :
  balance (step Sol p (EResolve id Err) st) = Some 0
  /\ errors (step Sol p (EResolve id Err) st) = errors st ++ [id]
  /\ rejections (step Sol p (EResolve id Err) st) = rejections st
  /\ (forall x, x <> EmptyString -> p x = false ->
        balance (get_balance Sol p (Some x) st) = Some 0
        /\ errors (get_balance Sol p (Some x) st) = errors st ++ [next_id st]
        /\ rejections (get_balance Sol p (Some x) st) = rejections st)
  /\ (forall evs st0, rejections (run Sol p evs st0) = rejections st0).
Proof.
  split; [|split; [|split; [|split]]].
  1-3: unfold step, resolve; rewrite Hf; unfold set_balance; proj_simpl;
       rewrite Hm, He, Nat.eqb_refl; reflexivity.
  - intros x Hx Hp. unfold get_balance.
    destruct (String.eqb_spec x EmptyString); [contradiction|]. rewrite Hp.
    unfold set_balance. proj_simpl. rewrite Hm, Nat.eqb_refl. repeat split.
  - intros evs st0.
    apply (run_invariant Sol p (fun s => rejections s = rejections st0)); [reflexivity|].
    intros e s _ Hs. rewrite step_sol_rejections. exact Hs.
Qed.

Lemma sol_failure_sets_zero_witness :
  find_request 0 (pending (run Sol (fun _ => true)
      [EMount {| address := Some "0xabc"%string; poll := true |}] initial))
    = Some {| req_id := 0; req_epoch := 1; req_address := "0xabc"%string |}
  /\ mounted (run Sol (fun _ => true)
      [EMount {| address := Some "0xabc"%string; poll := true |}] initial) = true
  /\ req_epoch {| req_id := 0; req_epoch := 1; req_address := "0xabc"%string |}
     = epoch (run Sol (fun _ => true)
         [EMount {| address := Some "0xabc"%string; poll := true |}] initial)
  /\ balance (step Sol (fun _ => true) (EResolve 0 Err) (run Sol (fun _ => true)
      [EMount {| address := Some "0xabc"%string; poll := true |}] initial)) = Some 0.
Proof.
  assert (H1 : find_request 0 (pending (run Sol (fun _ => true)
      [EMount {| address := Some "0xabc"%string; poll := true |}] initial))
    = Some {| req_id := 0; req_epoch := 1; req_address := "0xabc"%string |}) by reflexivity.
  assert (H2 : mounted (run Sol (fun _ => true)
      [EMount {| address := Some "0xabc"%string; poll := true |}] initial) = true)
    by reflexivity.
  assert (H3 : req_epoch {| req_id := 0; req_epoch := 1; req_address := "0xabc"%string |}
     = epoch (run Sol (fun _ => true)
         [EMount {| address := Some "0xabc"%string; poll := true |}] initial)) by reflexivity.
  split; [exact H1|]. split; [exact H2|]. split; [exact H3|].
  exact (proj1 (sol_failure_sets_zero (fun _ => true) _ 0 _ H1 H2 H3)).
Defined.

(** C4: when a fetch of the EVM poller rejects, the rejection is not
    caught: the [getBalance] promise of that call rejects, nothing is
    logged, and Balance is left unchanged. *)
Theorem evm_failure_propagates (p : string -> bool) (st : state) (id : nat) (r : request)
  (Hf : find_request id (pending st) = Some r) :
  rejections (step Evm p (EResolve id Err) st) = rejections st ++ [id]
  /\ balance (step Evm p (EResolve id Err) st) = balance st
  /\ errors (step Evm p (EResolve id Err) st) = errors st.
Proof. unfold step, resolve. rewrite Hf. repeat split. Qed.

Lemma evm_failure_propagates_witness :
  find_request 0 (pending (run Evm (fun _ => true)
      [EMount {| address := Some "0xabc"%string; poll := true |}] initial))
    = Some {| req_id := 0; req_epoch := 1; req_address := "0xabc"%string |}
  /\ rejections (step Evm (fun _ => true) (EResolve 0 Err) (run Evm (fun _ => true)
      [EMount {| address := Some "0xabc"%string; poll := true |}] initial)) = [0%nat].
Proof.
  assert (H1 : find_request 0 (pending (run Evm (fun _ => true)
      [EMount {| address := Some "0xabc"%string; poll := true |}] initial))
    = Some {| req_id := 0; req_epoch := 1; req_address := "0xabc"%string |}) by reflexivity.
  split; [exact H1|].
  exact (proj1 (evm_failure_propagates (fun _ => true) _ 0 _ H1)).
Defined.

(** C6: a poller mounted with polling enabled and a non-empty address
    fetches at once, at the mount time [t], and then at [t + 500],
    [t + 1000], ...: after [n] time units its fetches are those at
    [t + 500 * i] for [0 <= i <= n / 500]. *)
Theorem poll_immediate_then_every_500 (k : kind) (p : string -> bool) (c : config)
  (x : string) (st : state) (n : nat)
  (Hc : address c = Some x) (Hx : x <> EmptyString) (Hp : poll c = true)
  (Hm : mounted st = false) :
  fetches (run k p (EMount c :: List.repeat EAdvance n) st)
  = fetches st ++ map (fun i => ((clock st + 500 * i)%nat, x)) (seq 0 (S (n / 500))).
Proof.
  rewrite run_cons. unfold step. rewrite Hm. unfold effect. rewrite Hp, Hc.
  destruct (get_balance_pres k p (Some x) (fresh c st)) as (G1 & G2 & G3 & _).
  destruct (advance_schedule k p x Hx n
              (with_timer (Some (clock (fresh c st), Some x)) (get_balance k p (Some x) (fresh c st)))
              (fetches st) (clock st)) as (_ & _ & _ & H).
  - cbn [with_timer mounted]. rewrite G1. reflexivity.
  - reflexivity.
  - cbn [with_timer clock]. rewrite G3. reflexivity.
  - cbn [with_timer fetches]. rewrite get_balance_fetch by exact Hx. reflexivity.
  - exact H.
Qed.

Lemma poll_immediate_then_every_500_witness :
  address {| address := Some "0xabc"%string; poll := true |} = Some "0xabc"%string
  /\ "0xabc"%string <> EmptyString
  /\ poll {| address := Some "0xabc"%string; poll := true |} = true
  /\ mounted initial = false
  /\ fetches (run Evm (fun _ => true)
       (EMount {| address := Some "0xabc"%string; poll := true |} :: List.repeat EAdvance 1000)
       initial)
     = fetches initial ++ map (fun i => ((clock initial + 500 * i)%nat, "0xabc"%string))
                              (seq 0 (S (1000 / 500))).
Proof.
  split; [reflexivity|]. split; [discriminate|]. split; [reflexivity|]. split; [reflexivity|].
  apply poll_immediate_then_every_500; [reflexivity | discriminate | reflexivity | reflexivity].
Defined.

(** C7: with an address present (non-empty), a manual [getBalance] call
    fetches at once, whatever the phase of the timer, and changes neither
    the timer nor the clock, so the interval fetches that follow are
    exactly those without the call; with a [null] or empty address the
    call does nothing. *)
Theorem manual_fetch_keeps_schedule (k : kind) (p : string -> bool) (st : state) (x : string)
  (Hc : address (cfg st) = Some x) (Hx : x <> EmptyString) :
  fetches (step k p EManual st) = fetches st ++ [(clock st, x)]
  /\ timer (step k p EManual st) = timer st
  /\ clock (step k p EManual st) = clock st
  /\ (forall n, exists D,
        fetches (run k p (List.repeat EAdvance n) (step k p EManual st))
          = fetches st ++ [(clock st, x)] ++ D
        /\ fetches (run k p (List.repeat EAdvance n) st) = fetches st ++ D)
  /\ (forall st', truthy (address (cfg st')) = false -> step k p EManual st' = st').
Proof.
  assert (H1 : fetches (step k p EManual st) = fetches st ++ [(clock st, x)])
    by (unfold step; rewrite Hc; apply get_balance_fetch; exact Hx).
  destruct (get_balance_pres k p (address (cfg st)) st) as (_ & G2 & G3 & _).
  split; [exact H1|]. split; [exact G2|]. split; [exact G3|]. split.
  - intros n. destruct (advance_same_ticks k p n (step k p EManual st) st G2 G3) as (D & A & B).
    exists D. rewrite A, B, H1, <- app_assoc. auto.
  - intros st' H. unfold step. apply get_balance_falsy. exact H.
Qed.

Lemma manual_fetch_keeps_schedule_witness :
  address (cfg (run Evm (fun _ => true)
    [EMount {| address := Some "0xabc"%string; poll := true |}; EAdvance] initial))
    = Some "0xabc"%string
  /\ "0xabc"%string <> EmptyString
  /\ timer (step Evm (fun _ => true) EManual (run Evm (fun _ => true)
       [EMount {| address := Some "0xabc"%string; poll := true |}; EAdvance] initial))
     = timer (run Evm (fun _ => true)
       [EMount {| address := Some "0xabc"%string; poll := true |}; EAdvance] initial).
Proof.
  assert (H1 : address (cfg (run Evm (fun _ => true)
    [EMount {| address := Some "0xabc"%string; poll := true |}; EAdvance] initial))
    = Some "0xabc"%string) by reflexivity.
  assert (H2 : "0xabc"%string <> EmptyString) by discriminate.
  split; [exact H1|]. split; [exact H2|].
  exact (proj1 (proj2 (manual_fetch_keeps_schedule Evm (fun _ => true) _ _ H1 H2))).
Defined.

(** C8: the formatted balance is a function of Balance alone, for both
    formatters: two states with the same Balance give the same formatted
    balance, [formatEther b] or [formatSol(Number(b))] for a Balance [b]
    and undefined for an undefined Balance. *)
Theorem formatted_function_of_balance (k : kind) (st1 st2 : state)
  (H : balance st1 = balance st2) :
  formatted k st1 = formatted k st2
  /\ (forall b, balance st1 = Some b -> formatted k st1 = format_balance k b)
  /\ (balance st1 = None -> formatted k st1 = None).
Proof.
  split; [unfold formatted; rewrite H; reflexivity|].
  split; [intros b Hb | intros Hb]; unfold formatted; rewrite Hb; reflexivity.
Qed.

Lemma formatted_function_of_balance_witness :
  balance (with_balance (Some 1500000000) initial)
    = balance (with_balance (Some 1500000000) (unmounted initial))
  /\ formatted Sol (with_balance (Some 1500000000) initial)
     = formatted Sol (with_balance (Some 1500000000) (unmounted initial)).
Proof.
  assert (H : balance (with_balance (Some 1500000000) initial)
    = balance (with_balance (Some 1500000000) (unmounted initial))) by reflexivity.
  split; [exact H|]. exact (proj1 (formatted_function_of_balance Sol _ _ H)).
Defined.




(** C10: the third hook of [SignedInScreen], the non-EVM mainnet poller,
    gets the default [poll = false]; its [getBalance] is the [onSuccess]
    of the Solana [FundWallet] only; in every run of that poller, manual
    calls included, no timer is ever started and no event other than the
    manual trigger makes a fetch; and as long as the trigger is not
    called, whatever its address, no fetch is made and its Balance stays
    undefined. *)
Theorem mainnet_solana_never_polls :
  nth_error hooks 2 = Some {| hook_kind := Sol; hook_network := "solana-mainnet"%string;
                              hook_poll := false |}
  /\ (forall w, on_success w = 2%nat -> w = FundWalletSolana)
  /\ (forall (p : string -> bool) (evs : list event),
        (forall c, In (EMount c) evs \/ In (ERender c) evs -> poll c = poll_default) ->
        timer (run Sol p evs initial) = None
        /\ (forall evs1 e evs2, evs = evs1 ++ e :: evs2 -> e <> EManual ->
              fetches (step Sol p e (run Sol p evs1 initial)) = fetches (run Sol p evs1 initial))
        /\ ((forall e, In e evs -> e <> EManual) ->
              fetches (run Sol p evs initial) = [] /\ balance (run Sol p evs initial) = None)).
Proof.
  split; [reflexivity|]. split; [intros w Hw; destruct w; try discriminate Hw; reflexivity|].
  intros p evs Hcfg.
  assert (Htimer : forall evs1, (forall e, In e evs1 -> In e evs) ->
                     timer (run Sol p evs1 initial) = None).
  { intros evs1 Hsub. apply (run_invariant Sol p (fun s => timer s = None)); [reflexivity|].
    intros e s Hin H1. specialize (Hsub e Hin).
    destruct e as [c|c| | | |id o]; unfold step.
    - assert (Hc : poll c = false) by (apply Hcfg; left; exact Hsub).
      destruct (mounted s); [exact H1|]. unfold effect. rewrite Hc. reflexivity.
    - assert (Hc : poll c = false) by (apply Hcfg; right; exact Hsub).
      destruct (mounted s); [|exact H1]. destruct (deps_changed (cfg s) c).
      + unfold effect. rewrite Hc. reflexivity.
      + proj_simpl. exact H1.
    - destruct (mounted s); [reflexivity | exact H1].
    - destruct (get_balance_pres Sol p (address (cfg s)) s) as (_ & G2 & _). rewrite G2. exact H1.
    - cbn [with_clock timer]. rewrite H1. proj_simpl. exact H1.
    - unfold resolve. destruct (find_request id (pending s)) as [r|]; [|exact H1].
      destruct o as [v|].
      + destruct (set_balance_cases (req_epoch r) v
                    (with_pending (remove_request id (pending s)) s)) as [-> | ->]; exact H1.
      + destruct (set_balance_cases (req_epoch r) 0
                    (log_error id (with_pending (remove_request id (pending s)) s)))
          as [-> | ->]; exact H1. }
  split; [apply Htimer; auto|]. split.
  - intros evs1 e evs2 Hev Hne.
    assert (Hin : In e evs) by (rewrite Hev; apply in_or_app; right; left; reflexivity).
    assert (Ht : timer (run Sol p evs1 initial) = None)
      by (apply Htimer; intros e' He'; rewrite Hev; apply in_or_app; left; exact He').
    set (s := run Sol p evs1 initial) in *.
    destruct e as [c|c| | | |id o]; unfold step.
    + assert (Hc : poll c = false) by (apply Hcfg; left; exact Hin).
      destruct (mounted s); [reflexivity|]. unfold effect. rewrite Hc. reflexivity.
    + assert (Hc : poll c = false) by (apply Hcfg; right; exact Hin).
      destruct (mounted s); [|reflexivity]. destruct (deps_changed (cfg s) c).
      * unfold effect. rewrite Hc. reflexivity.
      * reflexivity.
    + destruct (mounted s); reflexivity.
    + exfalso. exact (Hne eq_refl).
    + cbn [with_clock timer]. rewrite Ht. reflexivity.
    + unfold resolve. destruct (find_request id (pending s)) as [r|]; [|reflexivity].
      destruct o as [v|].
      * destruct (set_balance_cases (req_epoch r) v
                    (with_pending (remove_request id (pending s)) s)) as [-> | ->]; reflexivity.
      * destruct (set_balance_cases (req_epoch r) 0
                    (log_error id (with_pending (remove_request id (pending s)) s)))
          as [-> | ->]; reflexivity.
  - intros Hman.
    enough (HI : timer (run Sol p evs initial) = None /\ fetches (run Sol p evs initial) = []
                 /\ balance (run Sol p evs initial) = None
                 /\ pending (run Sol p evs initial) = []) by tauto.
    apply (run_invariant Sol p (fun s => timer s = None /\ fetches s = [] /\ balance s = None
                                         /\ pending s = [])).
    + repeat split.
    + intros e s Hin (H1 & H2 & H3 & H4).
      destruct e as [c|c| | | |id o]; unfold step.
      * assert (Hc : poll c = false) by (apply Hcfg; left; exact Hin).
        destruct (mounted s); [auto|]. unfold effect. rewrite Hc. proj_simpl. auto.
      * assert (Hc : poll c = false) by (apply Hcfg; right; exact Hin).
        destruct (mounted s); [|auto]. destruct (deps_changed (cfg s) c).
        -- unfold effect. rewrite Hc. proj_simpl. auto.
        -- proj_simpl. auto.
      * destruct (mounted s); [proj_simpl|]; auto.
      * exfalso. exact (Hman EManual Hin eq_refl).
      * cbn [with_clock timer]. rewrite H1. proj_simpl. auto.
      * unfold resolve. rewrite H4. cbn [find_request]. auto.
Qed.

End PollerFacts.

(** * Further properties of the formatters *)
Module FormatExtras.
Import Dec DecFacts Viem JsNumber SolFormat FloatFacts EvmFormat SolFormatFacts.

Lemma formatEther_value B : 0 <= B ->
  exists N k, decimal_value (formatEther B) = Some (N, k) /\ (k <= 18)%nat
    /\ N * 10 ^ 18 = B * 10 ^ Z.of_nat k.
Proof.
  intros HB.
  destruct (formatEther_join B HB) as (D & ds & H1 & H2 & Hlen & ->).
  set (i := (List.length D - 18)%nat).
  destruct (parse_digits_firstn_skipn D ds i H1) as [Hi Hf].
  destruct (join_value _ _ _ _ Hi Hf) as (N & k & Hv & Hk & HN).
  assert (Hlf : List.length (skipn i D) = 18%nat) by (rewrite length_skipn; lia).
  rewrite Hlf in Hk, HN. change (Z.of_nat 18) with 18 in HN.
  exists N, k. split; [exact Hv|]. split; [exact Hk|].
  rewrite HN. f_equal. rewrite <- H2.
  rewrite <- (firstn_skipn i ds) at 3. rewrite dval_app.
  rewrite (parse_digits_length _ _ Hf), Hlf. reflexivity.
Qed.

(** Two decimal readings [N1 / 10^k1 = B1 / 10^d] and [N2 / 10^k2 = B2 / 10^d]
    of the same string are readings of the same number. *)
Lemma same_reading_same_value x N k d B1 B2 :
  decimal_value x = Some (N, k) -> N * 10 ^ d = B1 * 10 ^ Z.of_nat k ->
  N * 10 ^ d = B2 * 10 ^ Z.of_nat k -> B1 = B2.
Proof.
  intros _ H1 H2. rewrite H1 in H2.
  apply (Z.mul_cancel_r _ _ (10 ^ Z.of_nat k)); [|exact H2].
  pose proof (Z.pow_pos_nonneg 10 (Z.of_nat k) ltac:(lia) ltac:(lia)). lia.
Qed.

Lemma formatSol_value L : 0 <= L < 2 ^ 52 ->
  exists str N k, formatSol (of_Z L) = Some str /\ decimal_value str = Some (N, k)
     /\ (k <= 9)%nat /\ N * 10 ^ 9 = L * 10 ^ Z.of_nat k /\ trimmed str.
Proof.
  intros HL. destruct (Z.eq_dec L 0) as [->|HL0].
  - exists (s "0"), 0, O.
    split; [vm_compute; reflexivity|]. split; [reflexivity|]. split; [lia|].
    split; [reflexivity|].
    cbv. split; [discriminate | intros [H|[]]; discriminate H].
  - destruct (formatSol_pos L ltac:(lia)) as (a & b & da & db & Hf & Ha & Hb & Hlb & Hv).
    destruct (join_value a b da db Ha Hb) as (N & k & Hval & Hk & HN).
    rewrite Hlb in Hk, HN. change (Z.of_nat 9) with 9 in HN. rewrite Hv in HN.
    exists (join a b), N, k.
    split; [exact Hf|]. split; [exact Hval|]. split; [exact Hk|]. split; [exact HN|].
    exact (join_trimmed a b da db Ha Hb).
Qed.

(** Rounding to nine decimals lands within one nano of [L] when the float
    is within one nano of [L / 10^9]. *)
Lemma fixed_n_near M E L : E < 0 ->
  Z.abs (Zpos M * 10 ^ 9 - L * 2 ^ (- E)) < 2 ^ (- E) ->
  L - 1 <= fixed_n M E 9 <= L + 1.
Proof.
  intros HE HD. unfold fixed_n.
  replace (0 <=? E) with false by (symmetry; apply Z.leb_gt; lia).
  change (10 ^ Z.of_nat 9) with (10 ^ 9).
  replace (1 - E) with (1 + - E) by lia. rewrite Z.pow_add_r by lia.
  set (P := 2 ^ (- E)) in *. assert (0 < P) by (apply Z.pow_pos_nonneg; lia).
  destruct (Z.abs_spec (Zpos M * 10 ^ 9 - L * P)) as [[? Hx]|[? Hx]]; rewrite Hx in HD;
    (split;
     [apply Z.div_le_lower_bound; [lia | nia]
     | apply Z.lt_succ_r; apply Z.div_lt_upper_bound; [lia | nia]]).
Qed.

(** The float quotient [Number(L) / LAMPORTS_PER_SOL] for [0 < L < 2^53]:
    a finite value that [toFixed(9)] rounds to [L - 1], [L] or [L + 1]
    nanos. *)
Lemma quotient_near L : 0 < L < 2 ^ 53 ->
  exists M E, div (of_Z L) LAMPORTS_PER_SOL = S754_finite false M E
    /\ large M E = false /\ L - 1 <= fixed_n M E 9 <= L + 1.
Proof.
  intros HL.
  destruct (of_Z_exact L HL) as (m1 & e1 & Hof & Hm1 & Hmb & He1 & HLb).
  rewrite Hof, div_lamports by lia.
  set (M2 := 8388608000000000) in *.
  set (q := Zpos m1 * 2 ^ 53 / M2). set (r := Zpos m1 * 2 ^ 53 mod M2).
  assert (Hq : 2 ^ 52 <= q < 2 ^ 54).
  { subst q. split.
    - apply Z.div_le_lower_bound; [lia|]. subst M2. nia.
    - apply Z.div_lt_upper_bound; [lia|]. subst M2. nia. }
  assert (Hr : 0 <= r < M2) by (apply Z.mod_pos_bound; lia).
  assert (Hqr : q * M2 + r = Zpos m1 * 2 ^ 53).
  { subst q r. rewrite Z.mul_comm. symmetry. apply Z.div_mod. lia. }
  destruct (round_div_bound q (e1 - 30) r M2 ltac:(lia) eq_refl Hr Hq ltac:(lia))
    as (M & E & HV & HE & Herr).
  exists M, E. split; [exact HV|].
  rewrite Hqr in Herr.
  assert (Hc : (if q <? 2 ^ 53 then 1 else 2) <= 2) by (destruct (q <? 2 ^ 53); lia).
  set (j := E - (e1 - 30)) in *.
  assert (HPj : 0 < 2 ^ j) by (apply Z.pow_pos_nonneg; lia).
  assert (HPE : 0 < 2 ^ (- E)) by (apply Z.pow_pos_nonneg; lia).
  assert (HP23 : 0 < 2 ^ 23) by lia.
  assert (Hsplit : Zpos m1 * 2 ^ 53 = L * (2 ^ j * 2 ^ (- E)) * 2 ^ 23).
  { rewrite Hm1, <- !Z.mul_assoc, <- !Z.pow_add_r by lia. f_equal. f_equal. lia. }
  assert (HD : Zpos M * 2 ^ j * M2 - Zpos m1 * 2 ^ 53
               = 2 ^ j * 2 ^ 23 * (Zpos M * 10 ^ 9 - L * 2 ^ (- E)))
    by (rewrite Hsplit; subst M2; change 8388608000000000 with (10 ^ 9 * 2 ^ 23); ring).
  rewrite HD, Z.abs_mul, (Z.abs_eq (2 ^ j * 2 ^ 23)) in Herr by lia.
  set (D := Z.abs (Zpos M * 10 ^ 9 - L * 2 ^ (- E))) in *.
  assert (HD2 : 2 * D * 2 ^ j <= 2 * 10 ^ 9).
  { apply (Z.mul_le_mono_pos_r _ _ (2 ^ 23) HP23).
    apply Z.le_trans with ((if q <? 2 ^ 53 then 1 else 2) * M2); [nia|].
    subst M2. nia. }
  assert (Hk : 2 ^ 30 <= 2 ^ j * 2 ^ (- E)).
  { rewrite <- Z.pow_add_r by lia. apply Z.pow_le_mono_r; lia. }
  assert (HD3 : D < 2 ^ (- E)).
  { apply (Z.mul_lt_mono_pos_r (2 ^ j)); [exact HPj|]. nia. }
  assert (HEneg : E < 0) by lia.
  pose proof (fixed_n_near M E L HEneg HD3) as Hfix.
  split; [|exact Hfix].
  unfold large. replace (0 <=? E) with false by (symmetry; apply Z.leb_gt; lia).
  apply Z.leb_gt.
  assert (HDa : Zpos M * 10 ^ 9 - L * 2 ^ (- E) < 2 ^ (- E))
    by (subst D; destruct (Z.abs_spec (Zpos M * 10 ^ 9 - L * 2 ^ (- E))) as [[? Hx]|[? Hx]];
        rewrite Hx in HD3; lia).
  nia.
Qed.

Lemma formatSol_near_pos L : 2 ^ 52 <= L < 2 ^ 53 ->
  exists n a b da db, formatSol (of_Z L) = Some (join a b)
    /\ parse_digits a = Some da /\ parse_digits b = Some db
    /\ List.length b = 9%nat /\ dval da * 10 ^ 9 + dval db = n
    /\ L - 1 <= n <= L + 1.
Proof.
  intros HL. destruct (quotient_near L ltac:(lia)) as (M & E & HV & Hlarge & Hfix).
  set (n := fixed_n M E 9) in *.
  destruct (fixed_digits_9 n ltac:(lia)) as (a & b & da & db & Hd & Ha & Hne & Hb & Hlb & Hv).
  exists n, a, b, da, db. unfold formatSol. rewrite HV. cbn [toFixed]. rewrite Hlarge.
  fold n. rewrite app_nil_l, Hd, (strip_dot_join a b da db Ha Hne Hb).
  split; [reflexivity|]. repeat split; try assumption; lia.
Qed.

(** X1: for every non-negative balance [B], [formatEther B] ends neither
    in a decimal point nor, when it has a point, in a zero. *)
Theorem formatEther_trimmed (B : Z) (HB : 0 <= B) : trimmed (formatEther B).
Proof.
  destruct (formatEther_join B HB) as (D & ds & H1 & H2 & Hlen & ->).
  destruct (parse_digits_firstn_skipn D ds (List.length D - 18) H1) as [Hi Hf].
  exact (join_trimmed _ _ _ _ Hi Hf).
Qed.

Lemma formatEther_trimmed_witness :
  0 <= 1200000000000000000 /\ trimmed (formatEther 1200000000000000000).
Proof. split; [lia | apply formatEther_trimmed; lia]. Defined.

(** X2: two different non-negative wei balances are never displayed as
    the same [formatEther] string. *)
Theorem formatEther_injective (B1 B2 : Z) (H1 : 0 <= B1) (H2 : 0 <= B2)
  (Hne : B1 <> B2) : formatEther B1 <> formatEther B2.
Proof.
  intros Heq.
  destruct (formatEther_value B1 H1) as (N1 & k1 & V1 & _ & E1).
  destruct (formatEther_value B2 H2) as (N2 & k2 & V2 & _ & E2).
  rewrite Heq in V1. rewrite V1 in V2. injection V2 as <- <-.
  exact (Hne (same_reading_same_value _ _ _ _ _ _ V1 E1 E2)).
Qed.

Lemma formatEther_injective_witness :
  0 <= 1 /\ 0 <= 2 /\ 1 <> 2 /\ formatEther 1 <> formatEther 2.
Proof.
  split; [lia|]. split; [lia|]. split; [lia|].
  apply formatEther_injective; lia.
Defined.

(** X3: two different lamport balances below [2^52] are never displayed
    as the same [formatSol] string. *)
Theorem formatSol_injective_below_2_52 (L1 L2 : Z)
  (H1 : 0 <= L1 < 2 ^ 52) (H2 : 0 <= L2 < 2 ^ 52) (Hne : L1 <> L2) :
  formatSol (of_Z L1) <> formatSol (of_Z L2).
Proof.
  intros Heq.
  destruct (formatSol_value L1 H1) as (s1 & N1 & k1 & F1 & V1 & _ & E1 & _).
  destruct (formatSol_value L2 H2) as (s2 & N2 & k2 & F2 & V2 & _ & E2 & _).
  rewrite F1, F2 in Heq. injection Heq as <-.
  rewrite V1 in V2. injection V2 as <- <-.
  exact (Hne (same_reading_same_value _ _ _ _ _ _ V1 E1 E2)).
Qed.

Lemma formatSol_injective_below_2_52_witness :
  0 <= 1 < 2 ^ 52 /\ 0 <= 2 < 2 ^ 52 /\ 1 <> 2
  /\ formatSol (of_Z 1) <> formatSol (of_Z 2).
Proof.
  split; [lia|]. split; [lia|]. split; [lia|].
  apply formatSol_injective_below_2_52; lia.
Defined.

(** X4: for every lamport balance [0 <= L < 2^53] (every integer a
    JavaScript number holds exactly), [formatSol(Number(L))] is a trimmed
    decimal string with at most 9 fractional digits whose value is [n / 10^9]
    for an integer [n] between [L - 1] and [L + 1]: the display is off by
    at most one lamport. *)
Theorem formatSol_within_one_lamport (L : Z) (HL : 0 <= L < 2 ^ 53) :
  exists str N k n, formatSol (of_Z L) = Some str /\ decimal_value str = Some (N, k)
    /\ (k <= 9)%nat /\ N * 10 ^ 9 = n * 10 ^ Z.of_nat k
    /\ L - 1 <= n <= L + 1 /\ trimmed str.
Proof.
  destruct (Z.lt_ge_cases L (2 ^ 52)) as [Hlt|Hge].
  - destruct (formatSol_value L ltac:(lia)) as (str & N & k & F & V & Hk & E & T).
    exists str, N, k, L. repeat split; try assumption; lia.
  - destruct (formatSol_near_pos L ltac:(lia))
      as (n & a & b & da & db & Hf & Ha & Hb & Hlb & Hv & Hn).
    destruct (join_value a b da db Ha Hb) as (N & k & Hval & Hk & HN).
    rewrite Hlb in Hk, HN. change (Z.of_nat 9) with 9 in HN. rewrite Hv in HN.
    exists (join a b), N, k, n.
    split; [exact Hf|]. split; [exact Hval|]. split; [exact Hk|]. split; [exact HN|].
    split; [exact Hn|]. exact (join_trimmed a b da db Ha Hb).
Qed.

Lemma formatSol_within_one_lamport_witness :
  0 <= 8388608000000001 < 2 ^ 53 /\
  (exists str N k n, formatSol (of_Z 8388608000000001) = Some str
    /\ decimal_value str = Some (N, k) /\ (k <= 9)%nat /\ N * 10 ^ 9 = n * 10 ^ Z.of_nat k
    /\ 8388608000000001 - 1 <= n <= 8388608000000001 + 1 /\ trimmed str).
Proof. split; [lia | apply formatSol_within_one_lamport; lia]. Defined.

End FormatExtras.

(** * Further properties of the pollers *)
Module PollerExtras.
Import Poller Screen PollerFacts.

Implicit Types (k : kind) (p : string -> bool) (st : state) (x : string) (a : option string)
  (e : event) (evs : list event) (c : config) (n : nat).

Lemma find_remove id1 id2 (l : list request) : id1 <> id2 ->
  find_request id2 (remove_request id1 l) = find_request id2 l.
Proof.
  intros Hne. induction l as [|r l IH]; [reflexivity|].
  unfold remove_request in *. simpl filter.
  destruct (Nat.eqb_spec (req_id r) id1) as [E|E]; cbn [negb find_request].
  - rewrite IH. destruct (Nat.eqb_spec (req_id r) id2); [lia | reflexivity].
  - rewrite IH. reflexivity.
Qed.

Lemma resolve_ok_current k st id r v :
  find_request id (pending st) = Some r -> mounted st = true -> req_epoch r = epoch st ->
  resolve k id (Ok v) st = with_balance (Some v) (with_pending (remove_request id (pending st)) st).
Proof.
  intros Hf Hm He. unfold resolve. rewrite Hf.
  destruct k; unfold set_balance; proj_simpl; rewrite Hm, He, Nat.eqb_refl; reflexivity.
Qed.


Lemma resolve_pres k id o st :
  cfg (resolve k id o st) = cfg st /\ timer (resolve k id o st) = timer st
  /\ fetches (resolve k id o st) = fetches st.
Proof.
  unfold resolve. destruct (find_request id (pending st)) as [r|]; [|auto].
  destruct k, o; unfold set_balance; try destruct (_ && _); proj_simpl; auto.
Qed.

Lemma get_balance_fetches k p a st :
  fetches (get_balance k p a st) = fetches st
  \/ exists x, a = Some x /\ fetches (get_balance k p a st) = fetches st ++ [(clock st, x)].
Proof.
  destruct a as [x|]; [|left; reflexivity].
  destruct (String.eqb_spec x EmptyString) as [->|Hx]; [left; reflexivity|].
  right. exists x. split; [reflexivity | apply get_balance_fetch; exact Hx].
Qed.

Lemma get_balance_evm_errors p a st : errors (get_balance Evm p a st) = errors st.
Proof.
  unfold get_balance. destruct a as [x|]; [|reflexivity].
  destruct (String.eqb x EmptyString); reflexivity.
Qed.





(** X5: while the component is mounted, the request of the current
    instance that settles last with a value sets Balance, whichever of two
    outstanding requests was started first and whatever address each
    fetched: a late answer for an older request, or for an address the
    poller no longer shows, overwrites a newer one. *)
Theorem last_settled_wins (k : kind) (p : string -> bool) (st : state)
  (id1 id2 : nat) (r1 r2 : request) (v1 v2 : Z)
  (Hne : id1 <> id2)
  (H1 : find_request id1 (pending st) = Some r1)
  (H2 : find_request id2 (pending st) = Some r2)
  (Hm : mounted st = true) (He1 : req_epoch r1 = epoch st) (He2 : req_epoch r2 = epoch st) :
  balance (run k p [EResolve id1 (Ok v1); EResolve id2 (Ok v2)] st) = Some v2.
Proof.
  change (run k p [EResolve id1 (Ok v1); EResolve id2 (Ok v2)] st)
    with (step k p (EResolve id2 (Ok v2)) (step k p (EResolve id1 (Ok v1)) st)).
  cbn [step]. rewrite (resolve_ok_current k st id1 r1 v1 H1 Hm He1).
  rewrite (resolve_ok_current k _ id2 r2 v2); [reflexivity| |proj_simpl; exact Hm
    |proj_simpl; exact He2].
  proj_simpl. rewrite find_remove by exact Hne. exact H2.
Qed.

Lemma last_settled_wins_witness :
  let st := run Evm (fun _ => true)
    [EMount {| address := Some "0xaaa"%string; poll := true |};
     ERender {| address := Some "0xbbb"%string; poll := true |}] initial in
  let r0 := {| req_id := 0; req_epoch := 1; req_address := "0xaaa"%string |} in
  let r1 := {| req_id := 1; req_epoch := 1; req_address := "0xbbb"%string |} in
  (1 <> 0)%nat /\ find_request 1 (pending st) = Some r1 /\ find_request 0 (pending st) = Some r0
  /\ mounted st = true /\ req_epoch r1 = epoch st /\ req_epoch r0 = epoch st
  /\ balance (run Evm (fun _ => true) [EResolve 1 (Ok 20); EResolve 0 (Ok 10)] st) = Some 10.
Proof.
  cbv zeta.
  split; [lia|]. split; [vm_compute; reflexivity|]. split; [vm_compute; reflexivity|].
  split; [vm_compute; reflexivity|]. split; [vm_compute; reflexivity|].
  split; [vm_compute; reflexivity|].
  apply (last_settled_wins Evm (fun _ => true) _ 1 0
           {| req_id := 1; req_epoch := 1; req_address := "0xbbb"%string |}
           {| req_id := 0; req_epoch := 1; req_address := "0xaaa"%string |});
    [lia | vm_compute; reflexivity | vm_compute; reflexivity | vm_compute; reflexivity
    | vm_compute; reflexivity | vm_compute; reflexivity].
Defined.

(** X6: the EVM poller never calls [console.error]: whatever happens
    (mounts, renders, ticks, manual calls, requests resolving or
    rejecting), its error log is unchanged. *)
Theorem evm_never_logs_errors (p : string -> bool) (evs : list event) (st : state) :
  errors (run Evm p evs st) = errors st.
Proof.
  apply (run_invariant Evm p (fun s => errors s = errors st)); [reflexivity|].
  intros e s _ Hs. rewrite <- Hs.
  destruct e as [c|c| | | |id o]; unfold step.
  - destruct (mounted s); [reflexivity|]. unfold effect.
    destruct (poll c); [|reflexivity]. proj_simpl. rewrite get_balance_evm_errors. reflexivity.
  - destruct (mounted s); [|reflexivity]. destruct (deps_changed (cfg s) c); [|reflexivity].
    unfold effect. destruct (poll c); [|reflexivity]. proj_simpl.
    rewrite get_balance_evm_errors. reflexivity.
  - destruct (mounted s); reflexivity.
  - apply get_balance_evm_errors.
  - cbn [with_clock timer]. destruct (timer s) as [[t a]|]; [|reflexivity].
    destruct (Nat.eqb _ _); [|reflexivity]. rewrite get_balance_evm_errors. reflexivity.
  - unfold resolve. destruct (find_request id (pending s)) as [r|]; [|reflexivity].
    destruct o as [v|]; [|reflexivity].
    destruct (set_balance_cases (req_epoch r) v (with_pending (remove_request id (pending s)) s))
      as [-> | ->]; reflexivity.
Qed.

(** X7: starting from the initial state, every address the poller ever
    fetches is the address of a configuration given to it by a mount or a
    render. *)
Theorem fetches_only_given_addresses (k : kind) (p : string -> bool) (evs : list event)
  (t : nat) (x : string) (Hin : In (t, x) (fetches (run k p evs initial))) :
  exists c, (In (EMount c) evs \/ In (ERender c) evs) /\ address c = Some x.
Proof.
  set (G := fun y => exists c, (In (EMount c) evs \/ In (ERender c) evs) /\ address c = Some y).
  enough (HI : (forall y, address (cfg (run k p evs initial)) = Some y -> G y)
            /\ (forall t0 y, timer (run k p evs initial) = Some (t0, Some y) -> G y)
            /\ (forall t' y, In (t', y) (fetches (run k p evs initial)) -> G y))
    by exact (proj2 (proj2 HI) t x Hin).
  apply (run_invariant k p (fun s => (forall y, address (cfg s) = Some y -> G y)
            /\ (forall t0 y, timer s = Some (t0, Some y) -> G y)
            /\ (forall t' y, In (t', y) (fetches s) -> G y))).
  { split; [discriminate|]. split; [discriminate|]. intros t' y []. }
  intros e s Hev (I1 & I2 & I3).
  (* a [getBalance] call with an address known to come from a configuration *)
  assert (Hgb : forall a s', (forall y, a = Some y -> G y) ->
            (forall t' y, In (t', y) (fetches s') -> G y) ->
            forall t' y, In (t', y) (fetches (get_balance k p a s')) -> G y).
  { intros a s' Ha Hf t' y Hy.
    destruct (get_balance_fetches k p a s') as [E|(z & Ez & E)]; rewrite E in Hy.
    - exact (Hf t' y Hy).
    - apply in_app_or in Hy. destruct Hy as [Hy|[Hy|[]]]; [exact (Hf t' y Hy)|].
      injection Hy as _ <-. exact (Ha z Ez). }
  assert (Heff : forall c s', (In (EMount c) evs \/ In (ERender c) evs) ->
            (forall t' y, In (t', y) (fetches s') -> G y) ->
            (forall t0 y, timer s' = Some (t0, Some y) -> G y) ->
            (forall t0 y, timer (effect k p c s') = Some (t0, Some y) -> G y)
            /\ (forall t' y, In (t', y) (fetches (effect k p c s')) -> G y)).
  { intros c s' Hc Hf Ht. unfold effect. destruct (poll c).
    - proj_simpl. split.
      + intros t0 y Hy. injection Hy as _ Ey. exists c. auto.
      + apply Hgb; [|exact Hf]. intros y Ey. exists c. auto.
    - auto. }
  destruct e as [c|c| | | |id o]; unfold step.
  - destruct (mounted s); [auto|].
    assert (Hc : In (EMount c) evs \/ In (ERender c) evs) by (left; exact Hev).
    destruct (Heff c (fresh c s) Hc) as [E1 E2]; [proj_simpl; exact I3 | proj_simpl; discriminate|].
    split; [|split; [exact E1 | exact E2]].
    intros y Hy. unfold effect in Hy. destruct (poll c); proj_simpl;
      [destruct (get_balance_pres k p (address c) (fresh c s)) as (_ & _ & _ & G4 & _);
       rewrite G4 in Hy|]; proj_simpl; exists c; auto.
  - destruct (mounted s); [|auto].
    assert (Hc : In (EMount c) evs \/ In (ERender c) evs) by (right; exact Hev).
    destruct (deps_changed (cfg s) c).
    + destruct (Heff c (cleanup (with_cfg c s)) Hc) as [E1 E2];
        [proj_simpl; exact I3 | proj_simpl; discriminate|].
      split; [|split; [exact E1 | exact E2]].
      intros y Hy. unfold effect in Hy. destruct (poll c); proj_simpl;
        [destruct (get_balance_pres k p (address c) (cleanup (with_cfg c s))) as (_ & _ & _ & G4 & _);
         rewrite G4 in Hy|]; proj_simpl; exists c; auto.
    + proj_simpl. split; [intros y Hy; exists c; auto | auto].
  - destruct (mounted s); [|auto]. proj_simpl. split; [exact I1|]. split; [discriminate | exact I3].
  - destruct (get_balance_pres k p (address (cfg s)) s) as (_ & G2 & _ & G4 & _).
    rewrite G2, G4. split; [exact I1|]. split; [exact I2|].
    apply Hgb; [exact I1 | exact I3].
  - cbn [with_clock timer].
    destruct (timer s) as [[t0 a]|] eqn:Et; [|proj_simpl; rewrite Et; auto].
    destruct (Nat.eqb _ _); [|proj_simpl; rewrite Et; auto].
    destruct (get_balance_pres k p a (with_clock (S (clock s)) s)) as (_ & G2 & _ & G4 & _).
    rewrite G2, G4. proj_simpl. rewrite Et. split; [exact I1|]. split; [exact I2|].
    apply Hgb; [|exact I3]. intros y Ey. subst a. apply (I2 t0 y); first [exact Et | reflexivity].
  - destruct (resolve_pres k id o s) as (R1 & R2 & R3). rewrite R1, R2, R3. auto.
Qed.

Lemma fetches_only_given_addresses_witness :
  In (500%nat, "0xabc"%string) (fetches (run Sol (fun _ => true)
    (EMount {| address := Some "0xabc"%string; poll := true |} :: List.repeat EAdvance 500)
    initial))
  /\ exists c, (In (EMount c) (EMount {| address := Some "0xabc"%string; poll := true |}
                               :: List.repeat EAdvance 500)
               \/ In (ERender c) (EMount {| address := Some "0xabc"%string; poll := true |}
                               :: List.repeat EAdvance 500))
            /\ address c = Some "0xabc"%string.
Proof.
  assert (H : In (500%nat, "0xabc"%string) (fetches (run Sol (fun _ => true)
    (EMount {| address := Some "0xabc"%string; poll := true |} :: List.repeat EAdvance 500)
    initial))) by (vm_compute; right; left; reflexivity).
  split; [exact H|]. exact (fetches_only_given_addresses Sol _ _ _ _ H).
Defined.



(** X9: when a render of a mounted component changes the address or
    [poll] (the effect's dependencies) and leaves polling on with a
    non-empty address [x], the polling restarts from that render's time
    [t] on [x] alone: a fetch of [x] at [t], then at [t + 500],
    [t + 1000], ...; the previous interval makes no further fetch. *)
Theorem rerender_restarts_polling (k : kind) (p : string -> bool) (st : state) (c : config)
  (x : string) (n : nat)
  (Hm : mounted st = true) (Hd : deps_changed (cfg st) c = true)
  (Ha : address c = Some x) (Hx : x <> EmptyString) (Hp : poll c = true) :
  fetches (run k p (ERender c :: List.repeat EAdvance n) st)
  = fetches st ++ map (fun i => ((clock st + 500 * i)%nat, x)) (seq 0 (S (n / 500))).
Proof.
  rewrite run_cons. unfold step. rewrite Hm, Hd. unfold effect. rewrite Hp, Ha.
  set (st1 := cleanup (with_cfg c st)).
  destruct (get_balance_pres k p (Some x) st1) as (G1 & G2 & G3 & _).
  destruct (advance_schedule k p x Hx n
              (with_timer (Some (clock st1, Some x)) (get_balance k p (Some x) st1))
              (fetches st) (clock st)) as (_ & _ & _ & H).
  - proj_simpl. rewrite G1. subst st1. proj_simpl. exact Hm.
  - reflexivity.
  - proj_simpl. rewrite G3. reflexivity.
  - proj_simpl. rewrite get_balance_fetch by exact Hx. reflexivity.
  - exact H.
Qed.

Lemma rerender_restarts_polling_witness :
  let st := run Evm (fun _ => true)
    (EMount {| address := Some "0xaaa"%string; poll := true |} :: List.repeat EAdvance 300)
    initial in
  mounted st = true
  /\ deps_changed (cfg st) {| address := Some "0xbbb"%string; poll := true |} = true
  /\ address {| address := Some "0xbbb"%string; poll := true |} = Some "0xbbb"%string
  /\ "0xbbb"%string <> EmptyString
  /\ poll {| address := Some "0xbbb"%string; poll := true |} = true
  /\ fetches (run Evm (fun _ => true)
       (ERender {| address := Some "0xbbb"%string; poll := true |} :: List.repeat EAdvance 500) st)
     = fetches st ++ map (fun i => ((clock st + 500 * i)%nat, "0xbbb"%string))
                         (seq 0 (S (500 / 500))).
Proof.
  cbv zeta.
  split; [vm_compute; reflexivity|]. split; [vm_compute; reflexivity|].
  split; [reflexivity|]. split; [discriminate|]. split; [reflexivity|].
  apply rerender_restarts_polling;
    [vm_compute; reflexivity | vm_compute; reflexivity | reflexivity | discriminate
    | reflexivity].
Defined.



End PollerExtras.

(** * Further properties of the screen *)
Module ScreenExtras.
Import Dec JsNumber Viem SolFormat Poller Screen UserBalanceView ScreenCards
  PollerFacts FormatExtras.

(** X11: every widget that [SignedInScreen] renders gets as [onSuccess]
    the [getBalance] of the hook of its own chain (EVM for [FundWallet]
    on Base and the EVM transaction, non-EVM for the Solana ones), and
    that hook's address is non-empty: calling [onSuccess] fetches that
    address at once. *)
Theorem rendered_widget_fetches (w : widget) (evmAddress solanaAddress : option string)
  (isSignedIn : bool) (H : widget_rendered w evmAddress solanaAddress isSignedIn = true) :
  exists h x, nth_error hooks (on_success w) = Some h
    /\ hook_kind h = match w with FundWalletBase | EVMTransaction => Evm | _ => Sol end
    /\ address (hook_config h evmAddress solanaAddress) = Some x /\ x <> EmptyString
    /\ forall (p : string -> bool) (st : state), cfg st = hook_config h evmAddress solanaAddress ->
         fetches (step (hook_kind h) p EManual st) = fetches st ++ [(clock st, x)].
Proof.
  assert (Ht : forall a, truthy a = true -> exists x, a = Some x /\ x <> EmptyString).
  { intros [x|] Ha; [|discriminate]. exists x. split; [reflexivity|].
    intros ->. discriminate Ha. }
  destruct w; cbn [widget_rendered] in H; apply andb_prop in H; destruct H as [Ha _];
    destruct (Ht _ Ha) as (x & -> & Hx);
    (eexists; exists x; split; [reflexivity|]; split; [reflexivity|];
     split; [reflexivity|]; split; [exact Hx|];
     intros p st Hc; cbn [step]; rewrite Hc; apply get_balance_fetch; exact Hx).
Qed.

Lemma rendered_widget_fetches_witness :
  widget_rendered FundWalletSolana None (Some "So1"%string) true = true
  /\ exists h x, nth_error hooks (on_success FundWalletSolana) = Some h
    /\ hook_kind h = Sol
    /\ address (hook_config h None (Some "So1"%string)) = Some x /\ x <> EmptyString
    /\ forall (p : string -> bool) (st : state), cfg st = hook_config h None (Some "So1"%string) ->
         fetches (step (hook_kind h) p EManual st) = fetches st ++ [(clock st, x)].
Proof.
  assert (H : widget_rendered FundWalletSolana None (Some "So1"%string) true = true)
    by reflexivity.
  split; [exact H|]. exact (rendered_widget_fetches FundWalletSolana _ _ _ H).
Defined.

(** X12: each of the four balance cards shows the loading skeleton exactly
    while its hook's Balance is undefined: for an EVM card whatever the
    balance, for a non-EVM card provided a defined balance is an integer
    in [[0, 2^53)]. *)
Theorem card_loading_iff_undefined (env_solana : option string) (c : card) (st : state)
  (v : view) (Hc : In c cards) (Hv : card_view env_solana c st = Some v)
  (Hb : forall h b, nth_error hooks (card_hook c) = Some h -> hook_kind h = Sol ->
          balance st = Some b -> 0 <= b < 2 ^ 53) :
  loading v = true <-> balance st = None.
Proof.
  assert (Hk : exists h, nth_error hooks (card_hook c) = Some h).
  { destruct Hc as [<-|[<-|[<-|[<-|[]]]]]; eexists; reflexivity. }
  destruct Hk as (h & Hh). unfold card_view in Hv. rewrite Hh in Hv.
  injection Hv as <-. unfold UserBalance, formatted. cbn [loading].
  destruct (balance st) as [b|] eqn:Eb; [|split; reflexivity].
  unfold format_balance. destruct (hook_kind h) eqn:Ek.
  - split; discriminate.
  - pose proof (Hb h b Hh Ek eq_refl) as Hr.
    destruct (Z.lt_ge_cases b (2 ^ 52)) as [Hlt|Hge].
    + destruct (formatSol_value b ltac:(lia)) as (str & _ & _ & F & _). rewrite F.
      split; discriminate.
    + destruct (formatSol_near_pos b ltac:(lia)) as (n & a & b' & _ & _ & F & _). rewrite F.
      split; discriminate.
Qed.

Lemma card_loading_iff_undefined_witness :
  let c := nth 3 cards {| card_hook := 0; card_faucetUrl := None; card_faucetName := None |} in
  let st := with_balance (Some 6000000000000001) initial in
  In c cards
  /\ card_view None c st
     = Some (UserBalance None (formatSol (of_Z 6000000000000001))
               (card_faucetUrl c) (card_faucetName c))
  /\ (forall h b, nth_error hooks (card_hook c) = Some h -> hook_kind h = Sol ->
        balance st = Some b -> 0 <= b < 2 ^ 53)
  /\ (loading (UserBalance None (formatSol (of_Z 6000000000000001))
                 (card_faucetUrl c) (card_faucetName c)) = true
      <-> balance st = None).
Proof.
  cbv zeta.
  assert (H1 : In (nth 3 cards {| card_hook := 0; card_faucetUrl := None;
                                  card_faucetName := None |}) cards)
    by (right; right; right; left; reflexivity).
  assert (H2 : card_view None (nth 3 cards {| card_hook := 0;
                 card_faucetUrl := None; card_faucetName := None |})
                 (with_balance (Some 6000000000000001) initial)
     = Some (UserBalance None (formatSol (of_Z 6000000000000001))
               (card_faucetUrl (nth 3 cards {| card_hook := 0; card_faucetUrl := None;
                                               card_faucetName := None |}))
               (card_faucetName (nth 3 cards {| card_hook := 0; card_faucetUrl := None;
                                                card_faucetName := None |}))))
    by reflexivity.
  assert (H3 : forall h b, nth_error hooks (card_hook (nth 3 cards {| card_hook := 0;
                 card_faucetUrl := None; card_faucetName := None |})) = Some h ->
                 hook_kind h = Sol ->
                 balance (with_balance (Some 6000000000000001) initial) = Some b ->
                 0 <= b < 2 ^ 53)
    by (intros h b _ _ Eb; injection Eb as <-; lia).
  split; [exact H1|]. split; [exact H2|]. split; [exact H3|].
  exact (card_loading_iff_undefined None _ _ _ H1 H2 H3).
Defined.

(** X13: [UserBalance] picks its icon, its currency name and the currency
    of the faucet line from [NEXT_PUBLIC_CDP_CREATE_SOLANA_ACCOUNT] alone,
    not from the chain of the card: when that variable is set, each of the
    two EVM cards (Base and Base Sepolia) with a defined balance [b] shows
    [/sol.svg], the [formatEther] string of [b] and [Solana], and a faucet
    line of that card reads [SOL]. *)
Theorem evm_card_solana_branding (env_solana : option string) (c : card) (h : hook_use)
  (st : state) (b : Z) (v : view)
  (Hc : In c cards) (Hh : nth_error hooks (card_hook c) = Some h) (Hk : hook_kind h = Evm)
  (He : truthy env_solana = true) (Hb : balance st = Some b)
  (Hv : card_view env_solana c st = Some v) :
  shown v = Some ("/sol.svg"%string, formatEther b, "Solana"%string)
  /\ forall cur u n, faucet v = Some (cur, u, n) -> cur = "SOL"%string.
Proof.
  unfold card_view in Hv. rewrite Hh in Hv. injection Hv as <-.
  unfold UserBalance, formatted, format_balance. rewrite Hk, Hb, He. cbn [shown faucet].
  split; [reflexivity|]. intros cur u n.
  destruct (truthy (card_faucetUrl c) && truthy (card_faucetName c)); [|discriminate].
  destruct (card_faucetUrl c), (card_faucetName c); try discriminate.
  intros E. injection E as <- _ _. reflexivity.
Qed.

Lemma evm_card_solana_branding_witness :
  let c := nth 1 cards {| card_hook := 0; card_faucetUrl := None; card_faucetName := None |} in
  let h := {| hook_kind := Evm; hook_network := "base-sepolia"%string; hook_poll := true |} in
  let st := with_balance (Some 1500000000000000000) initial in
  let v := UserBalance (Some "true"%string) (Some (formatEther 1500000000000000000))
             (card_faucetUrl c) (card_faucetName c) in
  In c cards /\ nth_error hooks (card_hook c) = Some h /\ hook_kind h = Evm
  /\ truthy (Some "true"%string) = true /\ balance st = Some 1500000000000000000
  /\ card_view (Some "true"%string) c st = Some v
  /\ shown v = Some ("/sol.svg"%string, formatEther 1500000000000000000, "Solana"%string)
  /\ faucet v = Some ("SOL"%string, "https://portal.cdp.coinbase.com/products/faucet"%string,
                      "Base Sepolia Faucet"%string).
Proof.
  cbv zeta.
  split; [right; left; reflexivity|]. split; [reflexivity|]. split; [reflexivity|].
  split; [reflexivity|]. split; [reflexivity|]. split; [reflexivity|].
  split; [|reflexivity].
  refine (proj1 (evm_card_solana_branding (Some "true"%string) _
    {| hook_kind := Evm; hook_network := "base-sepolia"%string; hook_poll := true |}
    (with_balance (Some 1500000000000000000) initial) 1500000000000000000 _
    (or_intror (or_introl eq_refl)) eq_refl eq_refl eq_refl eq_refl eq_refl)).
Defined.

End ScreenExtras.
